(** * Group initiative dialogue: inactivity scanner, escalation dispatcher,
      activity reset path and snapshot persistence

    A shallow embedding of the plugin's core
    ([core/group_initiative_dialogue_core.py], [main.py],
    [utils/data_loader.py], [utils/group_message_manager.py]) and the
    properties of its escalation state machine.

    Conventions.
    - Python values that flow through the stores and through JSON are
      [pyval]s.  Python dicts are insertion ordered and JSON objects nest,
      so a dict is an association list with [dict_get] / [dict_set] /
      [dict_pop]; Python ints are unbounded, hence [Z].  Floats are outside
      the model: where the code goes through one ([total_seconds()], the
      quotient [x / 60]) the model computes exactly, which is what the
      float gives for spans below 2^53 microseconds and quotients below
      2^48.
    - An operation that can raise returns a [res]; an operation that mutates
      the core takes the core and returns the new one.  [CancelledError] is
      not an [Exception] (it derives from BaseException), so
      [except Exception] lets it through.
    - Every reading of the wall clock, every random draw and every answer of
      the host framework is an explicit input.
    - Each operation (a scanner tick, a dispatch, the handling of a
      message) runs from start to end without another one interleaving at
      its awaits.
    - The configuration is the typed record the core reads at start-up. *)

From Stdlib Require Import ZArith Lia Ascii String List Bool.
From stdpp Require Import base tactics option list strings gmap pretty.

Open Scope string_scope.
Open Scope Z_scope.

(** ** Exceptions and fallible results *)

Inductive exn : Type :=
| KeyError | TypeError | ValueError | AttributeError | IndexError
| ExternalError          (* a failure of the host framework or of I/O *)
| CancelledError.        (* asyncio.CancelledError *)

(** [isinstance(e, Exception)]. *)
Definition is_Exception (e : exn) : bool :=
  match e with CancelledError => false | _ => true end.

Inductive res (A : Type) : Type :=
| Ok (a : A)
| Raise (e : exn).
Arguments Ok {A} a.
Arguments Raise {A} e.

Definition rbind {A B} (m : res A) (k : A -> res B) : res B :=
  match m with Ok a => k a | Raise e => Raise e end.

Notation "'do' x <- m ; k" := (rbind m (fun x => k))
  (at level 10, x name, m at level 100, k at level 200).

(** ** Wall-clock values: [datetime.datetime] (naive) and [datetime.date] *)

Record date : Type := mkdate { d_year : Z; d_month : Z; d_day : Z }.

Record datetime : Type := mkdt {
  year : Z; month : Z; day : Z;
  hour : Z; minute : Z; second : Z; microsecond : Z }.

Definition is_leap (y : Z) : bool :=
  (y mod 4 =? 0) && (negb (y mod 100 =? 0) || (y mod 400 =? 0)).

Definition days_in_month (y m : Z) : Z :=
  if m =? 2 then (if is_leap y then 29 else 28)
  else if (m =? 4) || (m =? 6) || (m =? 9) || (m =? 11) then 30 else 31.

Definition valid_date (y m d : Z) : bool :=
  (1 <=? y) && (y <=? 9999) && (1 <=? m) && (m <=? 12)
  && (1 <=? d) && (d <=? days_in_month y m).

Definition valid_datetime (t : datetime) : bool :=
  valid_date (year t) (month t) (day t)
  && (0 <=? hour t) && (hour t <? 24)
  && (0 <=? minute t) && (minute t <? 60)
  && (0 <=? second t) && (second t <? 60)
  && (0 <=? microsecond t) && (microsecond t <? 1000000).

(** Proleptic Gregorian ordinal, as [datetime.toordinal]. *)
Definition days_before_year (y : Z) : Z :=
  let p := y - 1 in p * 365 + p / 4 - p / 100 + p / 400.

Fixpoint days_before_month_aux (y : Z) (m : nat) : Z :=
  match m with
  | O => 0
  | S m' => days_before_month_aux y m' + days_in_month y (Z.of_nat m)
  end.

Definition days_before_month (y m : Z) : Z :=
  days_before_month_aux y (Z.to_nat (m - 1)).

Definition toordinal (t : datetime) : Z :=
  days_before_year (year t) + days_before_month (year t) (month t) + day t.

(** Microseconds since the start of day 0; [a - b] of two datetimes is the
    timedelta of [to_microseconds a - to_microseconds b] microseconds. *)
Definition to_microseconds (t : datetime) : Z :=
  (((toordinal t * 24 + hour t) * 60 + minute t) * 60 + second t) * 1000000
  + microsecond t.

(** [(a - b).total_seconds() >= n] for an integer number of seconds [n],
    compared exactly. *)
Definition elapsed_at_least (a b : datetime) (n : Z) : bool :=
  n * 1000000 <=? to_microseconds a - to_microseconds b.

(** *** ISO 8601 text *)

Definition digit (n : Z) : ascii := ascii_of_nat (48 + Z.to_nat (n mod 10)).

(** [w] decimal digits of [n], most significant first, zero padded. *)
Fixpoint zpad (w : nat) (n : Z) : string :=
  match w with
  | O => ""
  | S w' => String (digit (n / 10 ^ Z.of_nat w')) (zpad w' (n mod 10 ^ Z.of_nat w'))
  end.

Definition isoformat_date (y m d : Z) : string :=
  zpad 4 y +:+ "-" +:+ zpad 2 m +:+ "-" +:+ zpad 2 d.

(** [datetime.isoformat()]: the fraction is printed only when it is not 0. *)
Definition isoformat (t : datetime) : string :=
  zpad 4 (year t) +:+ "-" +:+ zpad 2 (month t) +:+ "-" +:+ zpad 2 (day t) +:+ "T"
  +:+ zpad 2 (hour t) +:+ ":" +:+ zpad 2 (minute t) +:+ ":" +:+ zpad 2 (second t)
  +:+ (if microsecond t =? 0 then "" else "." +:+ zpad 6 (microsecond t)).

Definition digit_val (c : ascii) : option Z :=
  let n := nat_of_ascii c in
  if ((48 <=? n) && (n <=? 57))%nat then Some (Z.of_nat (n - 48)) else None.

(** Reads exactly [w] ASCII digits from the front of [s]. *)
Fixpoint parse_num (w : nat) (acc : Z) (s : string) : option (Z * string) :=
  match w with
  | O => Some (acc, s)
  | S w' =>
      match s with
      | String c s' =>
          match digit_val c with
          | Some d => parse_num w' (acc * 10 + d) s'
          | None => None
          end
      | EmptyString => None
      end
  end.

Definition expect (c : ascii) (s : string) : option string :=
  match s with
  | String c' s' => if Ascii.eqb c c' then Some s' else None
  | EmptyString => None
  end.

(** The fraction of a second: absent, three digits or six digits. *)
Definition parse_fraction (s : string) : option Z :=
  match s with
  | EmptyString => Some 0
  | String c s' =>
      if Ascii.eqb c "." then
        match parse_num 6 0 s' with
        | Some (us, EmptyString) => Some us
        | _ =>
            match parse_num 3 0 s' with
            | Some (ms, EmptyString) => Some (ms * 1000)
            | _ => None
            end
        end
      else None
  end.

Definition parse_time (s : string) : option (Z * Z * Z * Z) :=
  '(h, s1) ← parse_num 2 0 s;
  s2 ← expect ":" s1;
  '(mi, s3) ← parse_num 2 0 s2;
  s4 ← expect ":" s3;
  '(sec, s5) ← parse_num 2 0 s4;
  us ← parse_fraction s5;
  Some (h, mi, sec, us).

Definition parse_iso (s : string) : option datetime :=
  '(y, s1) ← parse_num 4 0 s;
  s2 ← expect "-" s1;
  '(m, s3) ← parse_num 2 0 s2;
  s4 ← expect "-" s3;
  '(d, s5) ← parse_num 2 0 s4;
  match s5 with
  | EmptyString => Some (mkdt y m d 0 0 0 0)
  | String _ s6 =>                        (* any one separator character *)
      '(h, mi, sec, us) ← parse_time s6;
      Some (mkdt y m d h mi sec us)
  end.

(** [datetime.fromisoformat] on the texts [isoformat] and
    [date.isoformat] produce (date alone, or date, one separator and
    HH:MM:SS with an optional fraction); field ranges are checked and a
    rejected text is a ValueError.  Shortened times and UTC offsets are not
    modelled. *)
Definition fromisoformat (s : string) : res datetime :=
  match parse_iso s with
  | Some t => if valid_datetime t then Ok t else Raise ValueError
  | None => Raise ValueError
  end.

(** ** Python values *)

#[local] Set Warnings "-register-all".

Inductive pyval : Type :=
| PNone
| PBool (b : bool)
| PInt (n : Z)
| PStr (s : string)
| PDatetime (t : datetime)
| PDate (d : date)
| PList (l : list pyval)
| PDict (d : list (string * pyval)).

Definition dict : Type := list (string * pyval).

(** *** Dicts: [d.get(k)], [d[k] = v], [d.pop(k, None)], [k in d] *)

Fixpoint dict_get {V} (k : string) (d : list (string * V)) : option V :=
  match d with
  | [] => None
  | (k', v) :: d' => if String.eqb k k' then Some v else dict_get k d'
  end.

Definition dict_get_default {V} (k : string) (dflt : V) (d : list (string * V)) : V :=
  match dict_get k d with Some v => v | None => dflt end.

Definition dict_mem {V} (k : string) (d : list (string * V)) : bool :=
  match dict_get k d with Some _ => true | None => false end.

Fixpoint dict_set {V} (k : string) (v : V) (d : list (string * V)) : list (string * V) :=
  match d with
  | [] => [(k, v)]
  | (k', v') :: d' =>
      if String.eqb k k' then (k, v) :: d' else (k', v') :: dict_set k v d'
  end.

Fixpoint dict_pop {V} (k : string) (d : list (string * V)) : list (string * V) :=
  match d with
  | [] => []
  | (k', v') :: d' =>
      if String.eqb k k' then d' else (k', v') :: dict_pop k d'
  end.

(** *** Strings: [pat in s], [s.split(c)], [s.replace(pat, '')] *)

Fixpoint str_contains (pat s : string) : bool :=
  String.prefix pat s
  || match s with
     | EmptyString => false
     | String _ s' => str_contains pat s'
     end.

Fixpoint split_on (c : ascii) (s : string) : list string :=
  match s with
  | EmptyString => [EmptyString]
  | String a s' =>
      match split_on c s' with
      | [] => [EmptyString]
      | w :: ws => if Ascii.eqb a c then EmptyString :: w :: ws else String a w :: ws
      end
  end.

(** Removes the non-overlapping occurrences of a non-empty [pat], scanning
    from the left; [skip] counts the characters of a match still to drop. *)
Fixpoint remove_all_aux (pat : string) (skip : nat) (s : string) : string :=
  match s with
  | EmptyString => EmptyString
  | String a s' =>
      match skip with
      | S k => remove_all_aux pat k s'
      | O =>
          if String.prefix pat s
          then remove_all_aux pat (String.length pat - 1) s'
          else String a (remove_all_aux pat 0 s')
      end
  end.

Definition remove_all (pat s : string) : string :=
  match pat with
  | EmptyString => s
  | _ => remove_all_aux pat 0 s
  end.

(** *** Dynamic operations and the exceptions they raise *)

(** Truth value of an object, as [if not x] sees it. *)
Definition py_truthy (v : pyval) : bool :=
  match v with
  | PNone => false
  | PBool b => b
  | PInt n => negb (n =? 0)
  | PStr s => negb (String.eqb s "")
  | PDatetime _ | PDate _ => true
  | PList l => match l with [] => false | _ => true end
  | PDict d => match d with [] => false | _ => true end
  end.

(** The operand of [x + 1], [x >= n]: an int (bool is a subclass). *)
Definition py_int (v : pyval) : res Z :=
  match v with
  | PInt n => Ok n
  | PBool b => Ok (if b then 1 else 0)
  | _ => Raise TypeError
  end.

(** [x.get(k, dflt)]. *)
Definition py_get (v : pyval) (k : string) (dflt : pyval) : res pyval :=
  match v with
  | PDict d => Ok (dict_get_default k dflt d)
  | _ => Raise AttributeError
  end.

(** [x[k]] for a string key. *)
Definition py_getitem (v : pyval) (k : string) : res pyval :=
  match v with
  | PDict d => match dict_get k d with Some x => Ok x | None => Raise KeyError end
  | _ => Raise TypeError
  end.

(** [x[k] = y] for a string key. *)
Definition py_setitem (v : pyval) (k : string) (y : pyval) : res pyval :=
  match v with
  | PDict d => Ok (PDict (dict_set k y d))
  | _ => Raise TypeError
  end.

Definition is_str (s : string) (v : pyval) : bool :=
  match v with PStr s' => String.eqb s s' | _ => false end.

(** [k in x] for a string [k]. *)
Definition py_contains (k : string) (v : pyval) : res bool :=
  match v with
  | PDict d => Ok (dict_mem k d)
  | PList l => Ok (existsb (is_str k) l)
  | PStr s => Ok (str_contains k s)
  | _ => Raise TypeError
  end.

(** [(now - x).total_seconds() >= n]: only a datetime can be subtracted
    from a datetime. *)
Definition py_elapsed_at_least (now : datetime) (x : pyval) (n : Z) : res bool :=
  match x with
  | PDatetime t => Ok (elapsed_at_least now t n)
  | _ => Raise TypeError
  end.

(** ** Configuration and core state *)

Record config : Type := mkconfig {
  inactive_time_seconds : Z;
  max_response_delay_seconds : Z;
  time_limit_enabled : bool;
  probability_enabled : bool;
  activity_start_hour : Z;
  activity_end_hour : Z;
  max_consecutive_messages : Z;
  whitelist_enabled : bool;
  whitelist_groups : gset string }.

(** The defaults of [GroupInitiativeDialogueCore.__init__]. *)
Definition default_config : config :=
  {| inactive_time_seconds := 7200;
     max_response_delay_seconds := 3600;
     time_limit_enabled := true;
     probability_enabled := true;
     activity_start_hour := 8;
     activity_end_hour := 23;
     max_consecutive_messages := 3;
     whitelist_enabled := false;
     whitelist_groups := ∅ |}.

Record core : Type := mkcore {
  consecutive_message_count : dict;
  group_records : dict;
  last_initiative_messages : dict;
  groups_received_initiative : gset string;
  last_initiative_types : dict }.

(** The stores as [__init__] leaves them. *)
Definition init_core : core :=
  {| consecutive_message_count := [];
     group_records := [];
     last_initiative_messages := [];
     groups_received_initiative := ∅;
     last_initiative_types := [] |}.

Definition set_consecutive_message_count (f : dict -> dict) (st : core) : core :=
  mkcore (f (consecutive_message_count st)) (group_records st)
         (last_initiative_messages st) (groups_received_initiative st)
         (last_initiative_types st).
Definition set_group_records (f : dict -> dict) (st : core) : core :=
  mkcore (consecutive_message_count st) (f (group_records st))
         (last_initiative_messages st) (groups_received_initiative st)
         (last_initiative_types st).
Definition set_last_initiative_messages (f : dict -> dict) (st : core) : core :=
  mkcore (consecutive_message_count st) (group_records st)
         (f (last_initiative_messages st)) (groups_received_initiative st)
         (last_initiative_types st).
Definition set_groups_received_initiative (f : gset string -> gset string) (st : core) : core :=
  mkcore (consecutive_message_count st) (group_records st)
         (last_initiative_messages st) (f (groups_received_initiative st))
         (last_initiative_types st).
Definition set_last_initiative_types (f : dict -> dict) (st : core) : core :=
  mkcore (consecutive_message_count st) (group_records st)
         (last_initiative_messages st) (groups_received_initiative st)
         (f (last_initiative_types st)).

(** The record stored under a group id in [group_records] and in
    [last_initiative_messages]. *)
Definition activity_record (now : datetime) (conversation_id unified_msg_origin : pyval) : pyval :=
  PDict [("timestamp", PDatetime now);
         ("conversation_id", conversation_id);
         ("unified_msg_origin", unified_msg_origin)].

(** [self.whitelist_enabled and group_id not in self.whitelist_groups]. *)
Definition whitelist_rejects (cfg : config) (group_id : string) : bool :=
  whitelist_enabled cfg && negb (bool_decide (group_id ∈ whitelist_groups cfg)).

(** ** Inactivity scanner: [_check_inactive_conversations_loop] *)

(** What the scanner hands to [TaskManager.schedule_task]: the keyword
    arguments of the call, the coroutine being [_send_initiative_message]. *)
Record task : Type := mktask {
  task_id : string;
  random_delay : bool;
  min_delay : Z;
  max_delay : Z;
  task_group_id : string;
  task_conversation_id : pyval;
  task_unified_msg_origin : pyval }.

Definition epoch : datetime := mkdt 1970 1 1 0 0 0 0.

(** [int(now.timestamp())], the local zone taken as UTC; it only labels
    the task. *)
Definition timestamp_seconds (now : datetime) : Z :=
  Z.quot (to_microseconds now - to_microseconds epoch) 1000000.

(** The body of the [for] loop up to the call of [schedule_task], for one
    entry of the snapshot: [Ok None] is a [continue] (or the fall through
    of the last [if]), [Ok (Some t)] the task to submit.
    [int(self.max_response_delay_seconds / 60)] is the truncated quotient:
    the float quotient of the two ints is correctly rounded, and below
    2^48 it cannot round up to the next integer. *)
Definition scan_group (cfg : config) (counts : dict) (now : datetime)
    (group_id : string) (record : pyval) : res (option task) :=
  if whitelist_rejects cfg group_id then Ok None
  else
    do current_count <- py_int (dict_get_default group_id (PInt 0) counts);
    if max_consecutive_messages cfg <=? current_count then Ok None
    else
      do last_active <- py_get record "timestamp" PNone;
      if negb (py_truthy last_active) then Ok None
      else
        do inactive <- py_elapsed_at_least now last_active (inactive_time_seconds cfg);
        if inactive then
          do conversation_id <- py_getitem record "conversation_id";
          do unified_msg_origin <- py_getitem record "unified_msg_origin";
          Ok (Some
            {| task_id := "group_initiative_" +:+ group_id +:+ "_"
                          +:+ pretty (timestamp_seconds now);
               random_delay := true;
               min_delay := 0;
               max_delay := Z.quot (max_response_delay_seconds cfg) 60;
               task_group_id := group_id;
               task_conversation_id := conversation_id;
               task_unified_msg_origin := unified_msg_origin |})
        else Ok None.

(** The outcome of one pass over the records: the core, the tasks accepted
    by the scheduler in submission order, and the exception that ended the
    pass early, if any. *)
Record scan_result : Type := mkscan {
  scan_core : core;
  scan_tasks : list task;
  scan_exn : option exn }.

(** The [for] loop over [list(self.group_records.items())].  [schedule] is
    the answer of the awaited [schedule_task]. *)
Fixpoint scan_records (cfg : config) (schedule : task -> res unit) (now : datetime)
    (snapshot : dict) (st : core) (submitted : list task) : scan_result :=
  match snapshot with
  | [] => mkscan st submitted None
  | (group_id, record) :: rest =>
      match scan_group cfg (consecutive_message_count st) now group_id record with
      | Raise e => mkscan st submitted (Some e)
      | Ok None => scan_records cfg schedule now rest st submitted
      | Ok (Some t) =>
          match schedule t with
          | Raise e => mkscan st submitted (Some e)
          | Ok _ =>
              scan_records cfg schedule now rest
                (set_group_records (dict_pop group_id) st) (submitted ++ [t])
          end
      end
  end.

(** What one wake-up of the loop observes. *)
Record wakeup : Type := mkwakeup {
  wake_cancelled : bool;           (* CancelledError delivered in the sleep *)
  wake_hour_clock : datetime;      (* now() read for the time window *)
  wake_now : datetime;             (* now() read before the scan *)
  wake_schedule : task -> res unit }.

(** [self.activity_start_hour <= current_hour < self.activity_end_hour]. *)
Definition in_activity_window (cfg : config) (t : datetime) : bool :=
  (activity_start_hour cfg <=? hour t) && (hour t <? activity_end_hour cfg).

(** One iteration of [while True], after the sleep. *)
Definition scan_tick (cfg : config) (w : wakeup) (st : core) : scan_result :=
  if time_limit_enabled cfg && negb (in_activity_window cfg (wake_hour_clock w))
  then mkscan st [] None
  else scan_records cfg (wake_schedule w) (wake_now w) (group_records st) st [].

Inductive loop_status : Type :=
| Sleeping                (* inside [while True], waiting for the next wake-up *)
| Cancelled               (* CancelledError logged and re-raised *)
| Returned (e : exn).     (* [except Exception]: logged, the coroutine ends *)

Record loop_result : Type := mkloop {
  loop_core : core;
  loop_tasks : list task;
  loop_ticks : nat;                (* iterations of [while True] started *)
  loop_status_of : loop_status }.

(** The coroutine run over the wake-ups it is given: the [try] encloses
    the whole [while True]. *)
Fixpoint check_loop (cfg : config) (wakeups : list wakeup) (st : core)
    (submitted : list task) (ticks : nat) : loop_result :=
  match wakeups with
  | [] => mkloop st submitted ticks Sleeping
  | w :: rest =>
      if wake_cancelled w then mkloop st submitted ticks Cancelled
      else
        let r := scan_tick cfg w st in
        match scan_exn r with
        | None =>
            check_loop cfg rest (scan_core r) (submitted ++ scan_tasks r) (S ticks)
        | Some e =>
            mkloop (scan_core r) (submitted ++ scan_tasks r) (S ticks)
                   (if is_Exception e then Returned e else Cancelled)
        end
  end.

Definition _check_inactive_conversations_loop (cfg : config) (wakeups : list wakeup)
    (st : core) : loop_result :=
  check_loop cfg wakeups st [] 0.

(** ** Message generation: [GroupMessageManager.generate_and_send_message] *)

Record conversation : Type := mkconversation { persona_id : option string }.

Record persona : Type := mkpersona { persona_persona_id : string; persona_prompt : string }.

(** The answers of the host framework during one call. *)
Record host : Type := mkhost {
  (* await conversation_manager.get_conversation(umo, conversation_id) *)
  host_get_conversation : pyval -> pyval -> res (option conversation);
  (* provider_manager.personas; None when reading it fails *)
  host_personas : option (list persona);
  host_get_llm_tool_manager : res unit;
  (* get_platform("aiocqhttp") and its .bot *)
  host_get_platform : res unit;
  (* whether the imports inside create_fake_event succeed *)
  host_event_classes_importable : bool;
  host_commit_event : res unit;
  host_request_llm : string -> res unit;
  host_random_choice : nat;
  host_randint : Z }.

Record send_request : Type := mkrequest {
  req_group_id : string;
  req_conversation_id : pyval;
  req_unified_msg_origin : pyval;
  req_prompts : list string;
  req_message_type : string;
  req_time_period : option string;
  req_extra_context : option string }.

(** The event committed to the platform; the raw message and the platform
    metadata of the real event are not modelled. *)
Record fake_event : Type := mkfake {
  fake_message_str : string;
  fake_session_id : pyval;
  fake_sender_id : string;
  fake_is_wake : bool;
  fake_call_llm : bool }.

Inductive send_result : Type :=
| SendFalse                                                (* [return False] *)
| LlmRequest (ev : fake_event) (system_prompt : string).   (* [request_llm(...)] *)

Definition system_marker : string := "[SYS_PROMPT]".

Definition context_requirement : string :=
  "请确保回复贴合当前的群聊上下文情景，保持友好和活跃的语气。".

Definition default_system_prompt : string :=
  "你是一个可爱的AI助手，喜欢和用户互动。你现在在一个群聊中，可以适当活跃气氛。".

(** The third component of the origin, or the origin itself. *)
Definition parse_unified_msg_origin (unified_msg_origin : pyval) : pyval :=
  match unified_msg_origin with
  | PStr s =>
      match split_on ":" s with
      | _ :: _ :: session :: _ => PStr session
      | _ => unified_msg_origin
      end
  | _ => unified_msg_origin          (* AttributeError caught inside *)
  end.

Definition _get_system_prompt (h : host) (pid : option string) (default_prompt : string) : string :=
  match pid with
  | None => default_prompt
  | Some p =>
      if String.eqb p "" then default_prompt
      else
        match host_personas h with
        | None => default_prompt
        | Some personas =>
            match List.find (fun x => String.eqb (persona_persona_id x) p) personas with
            | Some x =>
                if String.eqb (persona_prompt x) "" then default_prompt
                else persona_prompt x
            | None => default_prompt
            end
        end
  end.

Definition truthy_text (o : option string) : option string :=
  match o with
  | Some s => if String.eqb s "" then None else Some s
  | None => None
  end.

Definition adjust_prompt (prompt : string) (time_period extra_context : option string) : string :=
  let adjusted :=
    match truthy_text time_period with
    | Some tp =>
        system_marker +:+ " " +:+ prompt +:+ "，现在是" +:+ tp
        +:+ "，请保持与你的人格设定一致的风格，确保回复符合你的人设特点。"
        +:+ context_requirement
    | None =>
        system_marker +:+ " " +:+ prompt
        +:+ "，请保持与你的人格设定一致的风格，确保回复符合你的人设特点。"
        +:+ context_requirement
    end in
  match truthy_text extra_context with
  | Some extra =>
      remove_all context_requirement adjusted +:+ " " +:+ extra +:+ " "
      +:+ context_requirement
  | None => adjusted
  end.

Definition create_fake_event (h : host) (text : string) (umo : pyval)
    (session_id : pyval) (sender_id : string) : res (option fake_event) :=
  if host_event_classes_importable h then
    match umo with
    | PStr _ => Ok (Some (mkfake text session_id sender_id true false))
    | _ => Raise AttributeError           (* umo.lower() *)
    end
  else Ok None.

(** [random.choice(prompts)]. *)
Definition random_choice (seed : nat) (prompts : list string) : res string :=
  match prompts with
  | [] => Raise IndexError
  | p :: _ => Ok (nth (seed mod length prompts) prompts p)
  end.

(** The statements inside the [try]. *)
Definition generate_and_send_body (h : host) (st : core) (r : send_request)
    : core * res send_result :=
  let session_id := parse_unified_msg_origin (req_unified_msg_origin r) in
  match host_get_conversation h (req_unified_msg_origin r) (req_conversation_id r) with
  | Raise e => (st, Raise e)
  | Ok None => (st, Ok SendFalse)
  | Ok (Some conv) =>
      let system_prompt := _get_system_prompt h (persona_id conv) default_system_prompt in
      match random_choice (host_random_choice h) (req_prompts r) with
      | Raise e => (st, Raise e)
      | Ok prompt =>
          let adjusted_prompt :=
            adjust_prompt prompt (req_time_period r) (req_extra_context r) in
          match host_get_llm_tool_manager h with
          | Raise e => (st, Raise e)
          | Ok _ =>
          match host_get_platform h with
          | Raise e => (st, Raise e)
          | Ok _ =>
          match create_fake_event h adjusted_prompt (req_unified_msg_origin r)
                  session_id (req_group_id r) with
          | Raise e => (st, Raise e)
          | Ok ev =>
          match host_commit_event h with
          | Raise e => (st, Raise e)
          | Ok _ =>
              let st' :=
                if String.eqb (req_message_type r) "主动消息"
                then set_groups_received_initiative (union {[ req_group_id r ]}) st
                else st in
              match ev with
              | None => (st', Raise AttributeError)    (* None.request_llm *)
              | Some ev =>
                  match host_request_llm h adjusted_prompt with
                  | Raise e => (st', Raise e)
                  | Ok _ => (st', Ok (LlmRequest ev system_prompt))
                  end
              end
          end end end end
      end
  end.

(** [except Exception as e: ...; return False]. *)
Definition generate_and_send_message (h : host) (st : core) (r : send_request)
    : core * res send_result :=
  match generate_and_send_body h st r with
  | (st', Raise e) => if is_Exception e then (st', Ok SendFalse) else (st', Raise e)
  | out => out
  end.

(** ** Escalation dispatcher: [_send_initiative_message] *)

Definition initiative_prompts : list string :=
  [ "请生成一条简短的消息，表达你注意到群里很久没人说话了，想活跃一下气氛，询问大家在做什么或者分享一些有趣的话题，保持符合你的人设特点。";
    "请生成一条简短的消息，表示发现群聊有点冷清，想和大家聊聊天，可以问候大家或者提起一些轻松的话题，保持符合你的人设特点。";
    "请生成一条简短的消息，表达你看到群里安静了很久，想要主动和大家互动，可以分享一些日常或者询问大家的近况，保持符合你的人设特点。";
    "请生成一条简短的消息，表示注意到群里没什么动静，想要活跃一下聊天氛围，可以提出一些有趣的话题或者简单问候，保持符合你的人设特点。";
    "请生成一条简短的消息，表达你之前尝试活跃群聊但大家似乎都很忙，继续友好地尝试与群成员互动，保持符合你的人设特点。";
    "请生成一条简短的消息，表示理解大家可能都在忙，但还是想和群里的朋友们聊聊天，继续保持友好的互动态度，保持符合你的人设特点。";
    "请生成一条简短的消息，表达你理解大家都有自己的事情要忙，但还是关心群里的朋友们，希望大家一切都好，保持符合你的人设特点。";
    "请生成一条简短的消息，表示虽然群里比较安静，但你依然在这里陪伴大家，随时欢迎大家来聊天，保持符合你的人设特点。";
    "请生成一条简短的消息，表达你会继续默默关注群聊，不会频繁打扰大家，但随时欢迎大家有空时来聊天，保持符合你的人设特点。";
    "请生成一条简短的消息，表示你理解群聊有自己的节奏，会适当减少主动发言，但始终在这里陪伴着大家，保持符合你的人设特点。" ].

(** The count the dispatcher starts from: the one kept with the tier
    metadata when the group has any, else [consecutive_message_count]. *)
Definition read_current_count (st : core) (group_id : string) : res pyval :=
  match dict_get group_id (last_initiative_types st) with
  | Some last_info => py_get last_info "count" (PInt 0)
  | None => Ok (dict_get_default group_id (PInt 0) (consecutive_message_count st))
  end.

(** [next_count = current_count + 1]. *)
Definition read_next_count (st : core) (group_id : string) : res Z :=
  do current_count <- read_current_count st group_id;
  do n <- py_int current_count;
  Ok (n + 1).

Definition time_period_of (current_hour : Z) : string :=
  if (6 <=? current_hour) && (current_hour <? 8) then "早上"
  else if (8 <=? current_hour) && (current_hour <? 11) then "上午"
  else if (11 <=? current_hour) && (current_hour <? 13) then "午饭"
  else if (13 <=? current_hour) && (current_hour <? 17) then "下午"
  else if (17 <=? current_hour) && (current_hour <? 19) then "晚饭"
  else if (19 <=? current_hour) && (current_hour <? 23) then "晚上"
  else "深夜".

(** [random.randint(a, b)] for a draw [seed]. *)
Definition randint (seed a b : Z) : Z := a + seed mod (b - a + 1).

Definition select_prompt_index (cfg : config) (seed next_count : Z) : Z :=
  let prompt_index :=
    if next_count =? 1 then randint seed 0 3
    else if next_count =? 2 then randint seed 4 5
    else if next_count =? max_consecutive_messages cfg then randint seed 8 9
    else randint seed 6 7 in
  Z.min prompt_index (Z.of_nat (length initiative_prompts) - 1).

Definition extra_context_of (cfg : config) (time_period : string) (next_count : Z) : string :=
  "现在是" +:+ time_period +:+ "，这是第" +:+ pretty next_count
  +:+ "次主动在群聊中发言(请不要在回复中直接提及这个数字或'第几次'字样)，"
  +:+ "请根据目前的时间段(" +:+ time_period +:+ ")调整内容，"
  +:+ "请记住你是在群聊中发言，可以适当使用一些活跃气氛的表达方式。"
  +:+ (if max_consecutive_messages cfg <=? next_count
       then "这将是最后一次主动在群聊发言，表达你将减少主动发言的意思。"
       else "").

(** The readings of the clock during one dispatch. *)
Record dispatch_clock : Type := mkclock {
  clock_period : datetime;       (* now().hour for the time-of-day label *)
  clock_type_info : datetime;    (* the timestamp of message_type_info *)
  clock_sent : datetime }.       (* [now], read after the send returned *)

Definition type_info (next_count : Z) (time_period : string) (t : datetime) : pyval :=
  PDict [("count", PInt next_count);
         ("time_period", PStr time_period);
         ("timestamp", PDatetime t)].

(** The statements after the awaited send, up to the flush. *)
Definition commit_dispatch (cfg : config) (clk : dispatch_clock) (st : core)
    (group_id : string) (conversation_id unified_msg_origin : pyval)
    (next_count : Z) (time_period : string) : core :=
  let st := set_consecutive_message_count (dict_set group_id (PInt next_count)) st in
  let st := set_last_initiative_types
              (dict_set group_id (type_info next_count time_period (clock_type_info clk))) st in
  let st := set_last_initiative_messages
              (dict_set group_id
                 (activity_record (clock_sent clk) conversation_id unified_msg_origin)) st in
  let st := set_groups_received_initiative (union {[ group_id ]}) st in
  if next_count <? max_consecutive_messages cfg
  then set_group_records
         (dict_set group_id
            (activity_record (clock_sent clk) conversation_id unified_msg_origin)) st
  else st.

Record dispatch_result : Type := mkdispatch {
  dispatch_core : core;
  dispatch_sends : list send_request;   (* calls of generate_and_send_message *)
  dispatch_saved : bool;                (* save_data_to_storage was called *)
  dispatch_exn : option exn }.          (* the exception leaving the coroutine *)

Definition dispatch_request (cfg : config) (h : host) (clk : dispatch_clock)
    (group_id : string) (conversation_id unified_msg_origin : pyval)
    (next_count : Z) : send_request :=
  let time_period := time_period_of (hour (clock_period clk)) in
  let prompt_index := select_prompt_index cfg (host_randint h) next_count in
  let selected_prompt := nth (Z.to_nat prompt_index) initiative_prompts "" in
  {| req_group_id := group_id;
     req_conversation_id := conversation_id;
     req_unified_msg_origin := unified_msg_origin;
     req_prompts := [selected_prompt];
     req_message_type := "群聊主动消息";
     req_time_period := Some time_period;
     req_extra_context := Some (extra_context_of cfg time_period next_count) |}.

Definition _send_initiative_message (cfg : config) (h : host) (clk : dispatch_clock)
    (st : core) (group_id : string) (conversation_id unified_msg_origin : pyval)
    : dispatch_result :=
  if whitelist_rejects cfg group_id then mkdispatch st [] false None
  else
    match read_next_count st group_id with
    | Raise e => mkdispatch st [] false (Some e)
    | Ok next_count =>
        if max_consecutive_messages cfg <? next_count then mkdispatch st [] false None
        else
          let time_period := time_period_of (hour (clock_period clk)) in
          let r := dispatch_request cfg h clk group_id conversation_id
                     unified_msg_origin next_count in
          match generate_and_send_message h st r with
          | (st1, Ok result) =>
              mkdispatch
                (commit_dispatch cfg clk st1 group_id conversation_id
                   unified_msg_origin next_count time_period)
                [r] true None
          | (st1, Raise e) =>
              if is_Exception e then mkdispatch st1 [r] false None
              else mkdispatch st1 [r] false (Some e)
          end
    end.

(** ** Activity reset path: [on_group_message] and [handle_group_message] *)

Record event : Type := mkevent {
  event_group_id : string;
  message_str : string;
  unified_msg_origin : string;
  (* await conversation_manager.get_curr_conversation_id(umo) *)
  curr_conversation_id : res pyval;
  event_now : datetime }.

Definition handle_group_message (group_id : string) (ev : event) (st : core) : res core :=
  do conversation_id <- curr_conversation_id ev;
  Ok (set_group_records
        (dict_set group_id
           (activity_record (event_now ev) conversation_id (PStr (unified_msg_origin ev))))
        st).

(** [old_info["count"] = 0] on the group's tier metadata, when it has any. *)
Definition reset_type_info (group_id : string) (st : core) : res core :=
  match dict_get group_id (last_initiative_types st) with
  | Some old_info =>
      do old_info' <- py_setitem old_info "count" (PInt 0);
      Ok (set_last_initiative_types (dict_set group_id old_info') st)
  | None => Ok st
  end.

Record handler_result : Type := mkhandler {
  handler_core : core;
  handler_saved : bool;
  handler_exn : option exn }.

Definition on_group_message (ev : event) (st : core) : handler_result :=
  let group_id := event_group_id ev in
  if String.eqb group_id "" then mkhandler st false None
  else if str_contains system_marker (message_str ev) then mkhandler st false None
  else
    match handle_group_message group_id ev st with
    | Raise e => mkhandler st false (Some e)
    | Ok st1 =>
        if bool_decide (group_id ∈ groups_received_initiative st1) then
          let st2 := set_consecutive_message_count (dict_set group_id (PInt 0)) st1 in
          match reset_type_info group_id st2 with
          | Raise e => mkhandler st2 false (Some e)
          | Ok st3 =>
              mkhandler
                (set_groups_received_initiative (fun s => s ∖ {[ group_id ]}) st3)
                true None
          end
        else mkhandler st1 false None
    end.

(** ** Snapshot persistence: [DataLoader] *)

(** The data file: absent, holding a JSON document, or holding text that
    is not one (a write that failed half way).  A document dumped by
    [json.dump] is read back by [json.load] as the same value. *)
Inductive file : Type :=
| NoFile
| Json (v : pyval)
| Garbage.

(** One value of [_prepare_records_for_save]: a dict is prepared
    recursively, a datetime or a date becomes its ISO text, anything else
    is copied. *)
Fixpoint prepare_value (v : pyval) : pyval :=
  match v with
  | PDict d => PDict (map (fun kv => (fst kv, prepare_value (snd kv))) d)
  | PDatetime t => PStr (isoformat t)
  | PDate d => PStr (isoformat_date (d_year d) (d_month d) (d_day d))
  | _ => v
  end.

Definition _prepare_records_for_save (records : pyval) : dict :=
  match records with
  | PDict d => map (fun kv => (fst kv, prepare_value (snd kv))) d
  | _ => []
  end.

(** What [json.dump] accepts. *)
Fixpoint json_serializable (v : pyval) : bool :=
  match v with
  | PDatetime _ | PDate _ => false
  | PList l => forallb json_serializable l
  | PDict d => forallb (fun kv => json_serializable (snd kv)) d
  | _ => true
  end.

Definition data_to_save (st : core) : pyval :=
  PDict
    [("group_records", PDict (_prepare_records_for_save (PDict (group_records st))));
     ("last_initiative_messages",
        PDict (_prepare_records_for_save (PDict (last_initiative_messages st))));
     ("groups_received_initiative",
        PList (map PStr (elements (groups_received_initiative st))));
     ("consecutive_message_count", PDict (consecutive_message_count st));
     ("last_initiative_types",
        PDict (_prepare_records_for_save (PDict (last_initiative_types st))))].

(** [writable] is false when the directory or the file cannot be opened;
    every exception is caught and logged. *)
Definition save_data_to_storage (writable : bool) (st : core) (f : file) : file :=
  if writable then
    if json_serializable (data_to_save st) then Json (data_to_save st) else Garbage
  else f.

(** The timestamp conversion of one stored record. *)
Definition convert_timestamp (now : datetime) (record : pyval) : res pyval :=
  do has_timestamp <- py_contains "timestamp" record;
  if has_timestamp then
    do ts <- py_getitem record "timestamp";
    match ts with
    | PStr s =>
        py_setitem record "timestamp"
          (PDatetime (match fromisoformat s with Ok t => t | Raise _ => now end))
    | _ => Ok record
    end
  else Ok record.

Fixpoint convert_records (now : datetime) (records : dict) : res dict :=
  match records with
  | [] => Ok []
  | (group_id, record) :: rest =>
      do record' <- convert_timestamp now record;
      do rest' <- convert_records now rest;
      Ok ((group_id, record') :: rest')
  end.

(** [if key in stored_data: for group_id, record in stored_data[key].items(): ...] *)
Definition convert_store (now : datetime) (key : string) (stored_data : dict) : res dict :=
  match dict_get key stored_data with
  | None => Ok stored_data
  | Some (PDict records) =>
      do records' <- convert_records now records;
      Ok (dict_set key (PDict records') stored_data)
  | Some _ => Raise AttributeError
  end.

(** The stores hold dicts, and the marker set holds group ids: a stored
    value of another type is rejected here. *)
Definition as_dict (v : pyval) : res dict :=
  match v with PDict d => Ok d | _ => Raise TypeError end.

Fixpoint as_group_ids (l : list pyval) : res (list string) :=
  match l with
  | [] => Ok []
  | PStr s :: rest => do ids <- as_group_ids rest; Ok (s :: ids)
  | _ => Raise TypeError
  end.

Definition as_group_set (v : pyval) : res (gset string) :=
  match v with
  | PList l => do ids <- as_group_ids l; Ok (list_to_set ids)
  | _ => Raise TypeError
  end.

(** The conversions and the call of [set_data]. *)
Definition load_stores (now : datetime) (stored_data : pyval) (st : core) : res core :=
  match stored_data with
  | PDict top =>
      do top <- convert_store now "group_records" top;
      do top <- convert_store now "last_initiative_messages" top;
      do top <- convert_store now "last_initiative_types" top;
      do records <- as_dict (dict_get_default "group_records" (PDict []) top);
      do messages <- as_dict (dict_get_default "last_initiative_messages" (PDict []) top);
      do received <- as_group_set (dict_get_default "groups_received_initiative" (PList []) top);
      do counts <-
        match dict_get_default "consecutive_message_count" (PDict []) top with
        | PNone => Ok (consecutive_message_count st)
        | v => as_dict v
        end;
      do types <- as_dict (dict_get_default "last_initiative_types" (PDict []) top);
      Ok (mkcore counts records messages received types)
  | _ => Raise AttributeError
  end.

Definition load_data_from_storage (now : datetime) (f : file) (st : core) : core :=
  match f with
  | Json stored_data =>
      match load_stores now stored_data st with
      | Ok st' => st'
      | Raise _ => st
      end
  | NoFile | Garbage => st
  end.

(** ** Shape of the in-memory stores *)

(** The values the in-memory operations put into a record besides the
    timestamp: ids, origins, labels and counts. *)
Definition scalar (v : pyval) : bool :=
  match v with
  | PNone | PBool _ | PInt _ | PStr _ => true
  | _ => false
  end.

(** A field of a record: a valid datetime under "timestamp", or a scalar
    that is not a text under "timestamp". *)
Definition field_shaped (kv : string * pyval) : bool :=
  match snd kv with
  | PDatetime t => String.eqb "timestamp" (fst kv) && valid_datetime t
  | PStr _ => negb (String.eqb "timestamp" (fst kv))
  | PNone | PBool _ | PInt _ => true
  | _ => false
  end.

(** The keys of a Python dict are distinct. *)
Fixpoint unique_keys (d : dict) : bool :=
  match d with
  | [] => true
  | (k, _) :: d' => negb (dict_mem k d') && unique_keys d'
  end.

Definition record_shaped (v : pyval) : bool :=
  match v with
  | PDict r => unique_keys r && forallb field_shaped r
  | _ => false
  end.

Definition store_shaped (d : dict) : bool :=
  forallb (fun kv => record_shaped (snd kv)) d.

(** The stores as the in-memory operations build them: records and tier
    metadata of scalars with datetime timestamps, counts that JSON can
    hold. *)
Definition snapshot_shaped (st : core) : bool :=
  store_shaped (group_records st)
  && store_shaped (last_initiative_messages st)
  && store_shaped (last_initiative_types st)
  && forallb (fun kv => json_serializable (snd kv)) (consecutive_message_count st).

(** ** The delayed-task scheduler *)

(** Modelled from the spec: [TaskManager.schedule_task]
    (utils/task_manager.py is not among the sources).  The spec's contract
    is that it "samples delay uniformly from delay_range, then executes
    work exactly once after that delay elapses"; the range is the one the
    caller submits, [min_delay .. max_delay].  Neither the unit in which
    the scheduler reads the range nor the resolution of its draw is part of
    that contract, so both stay open: time is counted in ticks of any
    length, one unit of the range lasts [ticks_per_unit] ticks, and all
    that is said of a delay of [d] ticks is that it lies in the range. *)
Definition drawn_from_range (ticks_per_unit : Z) (t : task) (d : Z) : bool :=
  (ticks_per_unit * min_delay t <=? d) && (d <=? ticks_per_unit * max_delay t).

(** ** Scenarios *)

Definition group1 : string := "g1".
Definition conversation1 : pyval := PStr "c1".
Definition origin1 : pyval := PStr "aiocqhttp:GroupMessage:g1".

(** A host on which everything works, and one that knows no conversation
    for the given id ([get_conversation] returns None). *)
Definition host_ok : host :=
  {| host_get_conversation := fun _ _ => Ok (Some (mkconversation None));
     host_personas := Some [];
     host_get_llm_tool_manager := Ok tt;
     host_get_platform := Ok tt;
     host_event_classes_importable := true;
     host_commit_event := Ok tt;
     host_request_llm := fun _ => Ok tt;
     host_random_choice := 0%nat;
     host_randint := 0 |}.

Definition host_no_conversation : host :=
  {| host_get_conversation := fun _ _ => Ok None;
     host_personas := Some [];
     host_get_llm_tool_manager := Ok tt;
     host_get_platform := Ok tt;
     host_event_classes_importable := true;
     host_commit_event := Ok tt;
     host_request_llm := fun _ => Ok tt;
     host_random_choice := 0%nat;
     host_randint := 0 |}.

Definition morning : datetime := mkdt 2024 3 9 10 0 0 0.
Definition afternoon : datetime := mkdt 2024 3 9 14 0 0 0.

Definition clock1 : dispatch_clock :=
  mkclock afternoon (mkdt 2024 3 9 14 0 1 250000) (mkdt 2024 3 9 14 0 2 0).

(** One group, last active at 10:00. *)
Definition core_armed : core :=
  set_group_records (dict_set group1 (activity_record morning conversation1 origin1))
    init_core.

(** A wake-up at 14:00 on which the scheduler accepts every task. *)
Definition wake_afternoon : wakeup := mkwakeup false afternoon afternoon (fun _ => Ok tt).

Definition dispatch1 (st : core) : core :=
  dispatch_core (_send_initiative_message default_config host_ok clock1 st
                   group1 conversation1 origin1).

(** The group after one, two and three successful dispatches (the
    default maximum is 3). *)
Definition core_sent_once : core := dispatch1 init_core.
Definition core_sent_twice : core := dispatch1 core_sent_once.
Definition core_terminal : core := dispatch1 core_sent_twice.

(** The armed group with its count already at the default maximum. *)
Definition core_terminal_armed : core :=
  set_consecutive_message_count (dict_set group1 (PInt 3)) core_armed.

Definition reply1 : event :=
  mkevent group1 "大家好" "aiocqhttp:GroupMessage:g1" (Ok conversation1) afternoon.

Definition echo1 : event :=
  mkevent group1 "[SYS_PROMPT] 请生成一条简短的消息" "aiocqhttp:GroupMessage:g1"
    (Ok conversation1) afternoon.

(** The default configuration with a response delay of less than a
    minute. *)
Definition config_short_delay : config :=
  {| inactive_time_seconds := 7200;
     max_response_delay_seconds := 59;
     time_limit_enabled := true;
     probability_enabled := true;
     activity_start_hour := 8;
     activity_end_hour := 23;
     max_consecutive_messages := 3;
     whitelist_enabled := false;
     whitelist_groups := ∅ |}.

(** A wake-up at 14:00 on which the scheduler fails. *)
Definition wake_scheduler_down : wakeup :=
  mkwakeup false afternoon afternoon (fun _ => Raise ExternalError).

(** A data file whose one record has a timestamp and an origin but no
    conversation id. *)
Definition file_without_conversation : file :=
  Json (PDict
    [("group_records",
        PDict [(group1, PDict [("timestamp", PStr "2024-03-09T10:00:00");
                               ("unified_msg_origin", origin1)])])]).

(** ** Statements *)

(** The two copies of a group's count agree: the one kept with the tier
    metadata, when there is one, is the one of consecutive_message_count. *)
Definition counts_agree (st : core) (g : string) : Prop :=
  forall info,
    dict_get g (last_initiative_types st) = Some info ->
    py_get info "count" (PInt 0)
    = Ok (dict_get_default g (PInt 0) (consecutive_message_count st)).

(** The in-memory operations, each with any input and any answer of its
    environment. *)
Inductive step (cfg : config) : core -> core -> Prop :=
| step_message ev st :
    step cfg st (handler_core (on_group_message ev st))
| step_tick w st :
    step cfg st (scan_core (scan_tick cfg w st))
| step_dispatch h clk st g cid umo :
    step cfg st (dispatch_core (_send_initiative_message cfg h clk st g cid umo)).

Inductive reachable (cfg : config) : core -> Prop :=
| reachable_init : reachable cfg init_core
| reachable_step st st' : reachable cfg st -> step cfg st st' -> reachable cfg st'.

(** A group outside the marker set has count 0. *)
Definition counted_is_marked (st : core) : Prop :=
  forall g,
    g ∈ groups_received_initiative st
    \/ dict_get_default g (PInt 0) (consecutive_message_count st) = PInt 0.

(** The delay as the spec words it: the delays the scheduler can choose
    for the task, [possible], counted in ticks of which a second has
    [ticks_per_second], are the whole of 0 .. max_response_delay_seconds
    seconds. *)
Definition delay_over_configured_seconds (cfg : config) (ticks_per_second : Z)
    (possible : Z -> Prop) : Prop :=
  forall d,
    possible d <-> 0 <= d <= ticks_per_second * max_response_delay_seconds cfg.

(** Idempotence as the spec words it: after a dispatch whose send
    succeeded, the same dispatch run again changes nothing and sends
    nothing. *)
Definition rerun_is_noop (cfg : config) (h : host) (clk : dispatch_clock) (st : core)
    (g : string) (cid umo : pyval) : Prop :=
  let r1 := _send_initiative_message cfg h clk st g cid umo in
  let r2 := _send_initiative_message cfg h clk (dispatch_core r1) g cid umo in
  (exists req ev system_prompt,
      dispatch_sends r1 = [req]
      /\ snd (generate_and_send_message h st req) = Ok (LlmRequest ev system_prompt)) ->
  dispatch_core r2 = dispatch_core r1 /\ dispatch_sends r2 = [].

(** Inputs as the host supplies them: valid clock readings, scalar ids. *)
Definition valid_event (ev : event) : Prop :=
  valid_datetime (event_now ev) = true
  /\ forall c, curr_conversation_id ev = Ok c -> scalar c = true.

Definition valid_dispatch (clk : dispatch_clock) (cid umo : pyval) : Prop :=
  valid_datetime (clock_type_info clk) = true
  /\ valid_datetime (clock_sent clk) = true
  /\ scalar cid = true /\ scalar umo = true.

(** The states the in-memory operations build from such inputs. *)
Inductive built (cfg : config) : core -> Prop :=
| built_init : built cfg init_core
| built_message ev st :
    built cfg st -> valid_event ev ->
    built cfg (handler_core (on_group_message ev st))
| built_tick w st :
    built cfg st -> built cfg (scan_core (scan_tick cfg w st))
| built_dispatch h clk st g cid umo :
    built cfg st -> valid_dispatch clk cid umo ->
    built cfg (dispatch_core (_send_initiative_message cfg h clk st g cid umo)).

Local Abbreviation prepare_field :=
  (fun kv : string * pyval => (fst kv, prepare_value (snd kv))).

(** ** [GroupManager]: the helpers of utils/group_manager.py *)

(** [is_group_whitelisted]. *)
Definition is_group_whitelisted (group_id : string) (whitelist : gset string)
    (enabled : bool) : bool :=
  if negb enabled then true else bool_decide (group_id ∈ whitelist).

(** [should_send_initiative_message]; [now] is its reading of the clock. *)
Definition should_send_initiative_message (now : datetime) (group_id : string)
    (last_active_time : datetime) (inactive_threshold current_count max_count : Z) : bool :=
  if max_count <=? current_count then false
  else if negb (elapsed_at_least now last_active_time inactive_threshold) then false
  else true.

(** [create_group_conversation_id] and [get_group_unified_msg_origin]. *)
Definition create_group_conversation_id (group_id message_type : string) : string :=
  "group_" +:+ group_id +:+ "_" +:+ message_type.

Definition get_group_unified_msg_origin (group_id platform : string) : string :=
  platform +:+ ":group:" +:+ group_id.

(** [c in s] for one character. *)
Fixpoint has_char (c : ascii) (s : string) : bool :=
  match s with
  | EmptyString => false
  | String a s' => Ascii.eqb a c || has_char c s'
  end.

(** ** The admin command [test_group_initiative_message] of main.py *)

Record command_event : Type := mkcommand {
  command_is_admin : bool;
  command_group_id : string;
  command_unified_msg_origin : string;
  command_conversation_id : res pyval }.

Inductive command_reply : Type :=
| PlainResult (text : string)
| Generated (r : send_result).

Definition test_request (group_id : string) (conversation_id : pyval) (umo : string)
    : send_request :=
  {| req_group_id := group_id;
     req_conversation_id := conversation_id;
     req_unified_msg_origin := PStr umo;
     req_prompts := initiative_prompts;
     req_message_type := "测试";
     req_time_period := Some "测试";
     req_extra_context := None |}.

Definition test_group_initiative_message (h : host) (ev : command_event) (st : core)
    : core * res command_reply :=
  if negb (command_is_admin ev) then (st, Ok (PlainResult "只有管理员可以使用此命令"))
  else if String.eqb (command_group_id ev) "" then
    (st, Ok (PlainResult "此命令只能在群聊中使用"))
  else
    match command_conversation_id ev with
    | Raise e => (st, Raise e)
    | Ok conversation_id =>
        match generate_and_send_message h st
                (test_request (command_group_id ev) conversation_id
                   (command_unified_msg_origin ev)) with
        | (st', Ok r) => (st', Ok (Generated r))
        | (st', Raise e) => (st', Raise e)
        end
    end.

(** ** Runs of operations and what they keep *)

(** The dispatcher called [n] times in a row for one group: the core it
    leaves and the requests it made. *)
Fixpoint dispatch_times (n : nat) (cfg : config) (h : host) (clk : dispatch_clock)
    (st : core) (g : string) (cid umo : pyval) : core * list send_request :=
  match n with
  | O => (st, [])
  | S m =>
      let '(st1, sends) := dispatch_times m cfg h clk st g cid umo in
      let r := _send_initiative_message cfg h clk st1 g cid umo in
      (dispatch_core r, (sends ++ dispatch_sends r)%list)
  end.

(** A host on which every step of the send works. *)
Definition host_delivers (h : host) : Prop :=
  (forall umo cid, exists conv, host_get_conversation h umo cid = Ok (Some conv))
  /\ host_get_llm_tool_manager h = Ok tt
  /\ host_get_platform h = Ok tt
  /\ host_event_classes_importable h = true
  /\ host_commit_event h = Ok tt
  /\ forall prompt, host_request_llm h prompt = Ok tt.

Definition keys {V} (d : list (string * V)) : list string := map fst d.

Definition task_groups (ts : list task) : list string := map task_group_id ts.

(** The values of the stores by type: activity records are the three-field
    records, counts are ints satisfying [P], tier metadata are dicts with
    an int count satisfying [P]. *)
Definition record_typed (v : pyval) : Prop :=
  exists t c u, v = activity_record t c u.

Definition info_typed (P : Z -> Prop) (v : pyval) : Prop :=
  exists d n, v = PDict d /\ dict_get "count" d = Some (PInt n) /\ P n.

Definition stores_typed (P : Z -> Prop) (st : core) : Prop :=
  (forall g v, In (g, v) (group_records st) -> record_typed v)
  /\ (forall g v, In (g, v) (consecutive_message_count st) -> exists n, v = PInt n /\ P n)
  /\ (forall g v, In (g, v) (last_initiative_types st) -> info_typed P v).

(** A wake-up that is not cancelled and whose scheduler accepts every
    task. *)
Definition wake_accepts (w : wakeup) : Prop :=
  wake_cancelled w = false /\ forall t, wake_schedule w t = Ok tt.

(** No datetime or date sits inside a list: [_prepare_records_for_save]
    descends into dicts only. *)
Fixpoint dates_only_in_dicts (v : pyval) : bool :=
  match v with
  | PList l => forallb json_serializable l
  | PDict d => forallb (fun kv => dates_only_in_dicts (snd kv)) d
  | _ => true
  end.

(** What is kept about another group: its entry in each of the four dicts
    and its membership of the marker set. *)
Definition same_for_group (g : string) (st st' : core) : Prop :=
  dict_get g (consecutive_message_count st') = dict_get g (consecutive_message_count st)
  /\ dict_get g (group_records st') = dict_get g (group_records st)
  /\ dict_get g (last_initiative_messages st') = dict_get g (last_initiative_messages st)
  /\ dict_get g (last_initiative_types st') = dict_get g (last_initiative_types st)
  /\ (g ∈ groups_received_initiative st' <-> g ∈ groups_received_initiative st).

(** ** More scenarios *)

Definition night : datetime := mkdt 2024 3 10 2 0 0 0.
Definition evening : datetime := mkdt 2024 3 9 17 0 0 0.

(** Wake-ups at 02:00 and at 17:00 on which the scheduler accepts every
    task. *)
Definition wake_night : wakeup := mkwakeup false night night (fun _ => Ok tt).
Definition wake_evening : wakeup := mkwakeup false evening evening (fun _ => Ok tt).

(** The default configuration with the whitelist on and one other group
    listed. *)
Definition config_listed : config :=
  {| inactive_time_seconds := 7200;
     max_response_delay_seconds := 3600;
     time_limit_enabled := true;
     probability_enabled := true;
     activity_start_hour := 8;
     activity_end_hour := 23;
     max_consecutive_messages := 3;
     whitelist_enabled := true;
     whitelist_groups := {[ "g2" ]} |}.

(** The text of the event behind the first request sent for the group,
    and the group message that carries it back. *)
Definition outreach_text1 : string :=
  match snd (generate_and_send_message host_ok init_core
               (dispatch_request default_config host_ok clock1 group1 conversation1
                  origin1 1)) with
  | Ok (LlmRequest fe _) => fake_message_str fe
  | _ => ""
  end.

Definition outreach_echo1 : event :=
  mkevent group1 outreach_text1 "aiocqhttp:GroupMessage:g1" (Ok conversation1) afternoon.

(** Documents: one whose group_records is a list, one that holds counts
    only. *)
Definition document_with_list : dict := [("group_records", PList [])].
Definition document_counts_only : dict :=
  [("consecutive_message_count", PDict [(group1, PInt 3)])].

(** A host that knows three personas, two of them under the same id, the
    first of which has no prompt. *)
Definition host_three_personas : host :=
  {| host_get_conversation := fun _ _ => Ok (Some (mkconversation (Some "p1")));
     host_personas := Some [mkpersona "p0" ""; mkpersona "p0" "第二个人格";
                            mkpersona "p1" "你是群里的气氛担当"];
     host_get_llm_tool_manager := Ok tt;
     host_get_platform := Ok tt;
     host_event_classes_importable := true;
     host_commit_event := Ok tt;
     host_request_llm := fun _ => Ok tt;
     host_random_choice := 0%nat;
     host_randint := 0 |}.

(** * Properties *)

(** ** Dicts *)

Section dict_facts.
Context {V : Type}.
Implicit Types (d : list (string * V)) (k : string) (v : V).

Lemma dict_get_set_eq k v d : dict_get k (dict_set k v d) = Some v.
Proof.
  induction d as [|[k' v'] d IH]; simpl.
  - now rewrite String.eqb_refl.
  - destruct (String.eqb k k') eqn:E; simpl.
    + now rewrite String.eqb_refl.
    + now rewrite E.
Qed.

Lemma dict_get_set_ne k k' v d :
  k <> k' -> dict_get k (dict_set k' v d) = dict_get k d.
Proof.
  intros Hne. induction d as [|[k0 v0] d IH]; simpl.
  - apply String.eqb_neq in Hne. now rewrite Hne.
  - destruct (String.eqb k' k0) eqn:E; simpl.
    + apply String.eqb_eq in E. subst k0.
      apply String.eqb_neq in Hne. now rewrite Hne.
    + now rewrite IH.
Qed.

Lemma dict_get_pop_ne k k' d :
  k <> k' -> dict_get k (dict_pop k' d) = dict_get k d.
Proof.
  intros Hne. induction d as [|[k0 v0] d IH]; simpl; [reflexivity|].
  destruct (String.eqb k' k0) eqn:E; simpl.
  - apply String.eqb_eq in E. subst k0.
    apply String.eqb_neq in Hne. now rewrite Hne.
  - now rewrite IH.
Qed.

Lemma dict_get_In k v d : dict_get k d = Some v -> In (k, v) d.
Proof.
  induction d as [|[k' v'] d IH]; simpl; [discriminate|].
  destruct (String.eqb k k') eqn:E.
  - apply String.eqb_eq in E. intros [= ->]. subst. now left.
  - intros H. right. now apply IH.
Qed.

Lemma dict_get_default_set_eq k v dflt d :
  dict_get_default k dflt (dict_set k v d) = v.
Proof. unfold dict_get_default. now rewrite dict_get_set_eq. Qed.

Lemma dict_get_default_set_ne k k' v dflt d :
  k <> k' -> dict_get_default k dflt (dict_set k' v d) = dict_get_default k dflt d.
Proof. intros H. unfold dict_get_default. now rewrite dict_get_set_ne. Qed.
End dict_facts.

(** ** The scanner *)

(** A pass over the records changes [group_records] only. *)
Lemma scan_records_counts cfg schedule now snapshot st submitted :
  let r := scan_records cfg schedule now snapshot st submitted in
  consecutive_message_count (scan_core r) = consecutive_message_count st
  /\ groups_received_initiative (scan_core r) = groups_received_initiative st
  /\ last_initiative_types (scan_core r) = last_initiative_types st
  /\ last_initiative_messages (scan_core r) = last_initiative_messages st.
Proof.
  revert st submitted.
  induction snapshot as [|[g record] rest IH]; intros st submitted; simpl; [auto|].
  destruct (scan_group cfg _ now g record) as [[t|]|e]; simpl; auto.
  destruct (schedule t); simpl; auto.
  apply (IH (set_group_records (dict_pop g) st)).
Qed.

Lemma scan_tick_counts cfg w st :
  consecutive_message_count (scan_core (scan_tick cfg w st)) = consecutive_message_count st
  /\ groups_received_initiative (scan_core (scan_tick cfg w st)) = groups_received_initiative st
  /\ last_initiative_types (scan_core (scan_tick cfg w st)) = last_initiative_types st
  /\ last_initiative_messages (scan_core (scan_tick cfg w st)) = last_initiative_messages st.
Proof.
  unfold scan_tick.
  destruct (time_limit_enabled cfg && negb (in_activity_window cfg (wake_hour_clock w)));
    simpl; [auto|].
  apply scan_records_counts.
Qed.

(** The task of a group comes from an entry of that group. *)
Lemma scan_group_task_id cfg counts now g record t :
  scan_group cfg counts now g record = Ok (Some t) -> task_group_id t = g.
Proof.
  unfold scan_group.
  destruct (whitelist_rejects cfg g); [discriminate|].
  destruct (py_int _) as [n|]; simpl; [|discriminate].
  destruct (max_consecutive_messages cfg <=? n); [discriminate|].
  destruct (py_get record "timestamp" PNone) as [la|]; simpl; [|discriminate].
  destruct (negb (py_truthy la)); [discriminate|].
  destruct (py_elapsed_at_least now la _) as [[|]|]; simpl; try discriminate.
  destruct (py_getitem record "conversation_id"); simpl; [|discriminate].
  destruct (py_getitem record "unified_msg_origin"); simpl; [|discriminate].
  now intros [= <-].
Qed.

(** A group at or above the maximum is skipped whatever its record. *)
Lemma scan_group_terminal cfg counts now g record n :
  py_int (dict_get_default g (PInt 0) counts) = Ok n ->
  max_consecutive_messages cfg <= n ->
  scan_group cfg counts now g record = Ok None.
Proof.
  intros Hn Hmax. unfold scan_group.
  destruct (whitelist_rejects cfg g); [reflexivity|].
  rewrite Hn. simpl.
  destruct (Z.leb_spec (max_consecutive_messages cfg) n); [reflexivity|lia].
Qed.

Lemma scan_records_terminal cfg schedule now g n snapshot st submitted :
  py_int (dict_get_default g (PInt 0) (consecutive_message_count st)) = Ok n ->
  max_consecutive_messages cfg <= n ->
  (forall t, In t submitted -> task_group_id t <> g) ->
  let r := scan_records cfg schedule now snapshot st submitted in
  (forall t, In t (scan_tasks r) -> task_group_id t <> g)
  /\ dict_get g (group_records (scan_core r)) = dict_get g (group_records st).
Proof.
  revert st submitted.
  induction snapshot as [|[g' record] rest IH]; intros st submitted Hn Hmax Hsub; simpl.
  - auto.
  - destruct (scan_group cfg _ now g' record) as [[t|]|e] eqn:Hscan; simpl; auto.
    destruct (schedule t); simpl; auto.
    assert (g' <> g) as Hne.
    { intros ->. rewrite (scan_group_terminal _ _ _ _ _ _ Hn Hmax) in Hscan.
      discriminate. }
    destruct (IH (set_group_records (dict_pop g') st) (submitted ++ [t])%list) as [H1 H2];
      auto.
    + intros t' [Hin|[<-|[]]]%in_app_or; [now apply Hsub|].
      now rewrite (scan_group_task_id _ _ _ _ _ _ Hscan).
    + split; [exact H1|]. rewrite H2. simpl. now apply dict_get_pop_ne.
Qed.

(** One tick: nothing is submitted for the group, its record and every
    count stay as they were. *)
Lemma scan_tick_terminal cfg w st g n :
  py_int (dict_get_default g (PInt 0) (consecutive_message_count st)) = Ok n ->
  max_consecutive_messages cfg <= n ->
  (forall t, In t (scan_tasks (scan_tick cfg w st)) -> task_group_id t <> g)
  /\ dict_get g (group_records (scan_core (scan_tick cfg w st)))
     = dict_get g (group_records st).
Proof.
  intros Hn Hmax. unfold scan_tick.
  destruct (time_limit_enabled cfg && negb (in_activity_window cfg (wake_hour_clock w)));
    simpl; [tauto|].
  now apply (scan_records_terminal cfg _ _ g n _ st []).
Qed.

Lemma check_loop_terminal cfg g n wakeups : forall st submitted ticks,
  py_int (dict_get_default g (PInt 0) (consecutive_message_count st)) = Ok n ->
  max_consecutive_messages cfg <= n ->
  (forall t, In t submitted -> task_group_id t <> g) ->
  let r := check_loop cfg wakeups st submitted ticks in
  (forall t, In t (loop_tasks r) -> task_group_id t <> g)
  /\ dict_get g (group_records (loop_core r)) = dict_get g (group_records st)
  /\ consecutive_message_count (loop_core r) = consecutive_message_count st.
Proof.
  induction wakeups as [|w rest IH]; intros st submitted ticks Hn Hmax Hsub;
    cbn [check_loop].
  - auto.
  - destruct (wake_cancelled w); [cbn; auto|].
    destruct (scan_tick_terminal cfg w st g n Hn Hmax) as [Htasks Hrecord].
    destruct (scan_tick_counts cfg w st) as (Hcounts & _).
    assert (forall t, In t (submitted ++ scan_tasks (scan_tick cfg w st))%list ->
                      task_group_id t <> g) as Hsub'.
    { intros t [Hin|Hin]%in_app_or; auto. }
    destruct (scan_exn (scan_tick cfg w st)) as [e|].
    + cbn. auto.
    + destruct (IH (scan_core (scan_tick cfg w st))
                  (submitted ++ scan_tasks (scan_tick cfg w st))%list (S ticks))
        as (H1 & H2 & H3); [now rewrite Hcounts|assumption|assumption|].
      split; [exact H1|]. split; [now rewrite H2|now rewrite H3].
Qed.

(** C2.  A group whose consecutive_message_count is at or above
    max_consecutive_messages is never handed to the scheduler by the
    scanner: over any run of ticks, from any state, no task is submitted
    for it, its activity record stays as it was and no count changes, so
    only the reset path, which zeroes the count, ends this. *)
Theorem scanner_skips_terminal_group cfg wakeups st g n :
  py_int (dict_get_default g (PInt 0) (consecutive_message_count st)) = Ok n ->
  max_consecutive_messages cfg <= n ->
  let r := _check_inactive_conversations_loop cfg wakeups st in
  (forall t, In t (loop_tasks r) -> task_group_id t <> g)
  /\ dict_get g (group_records (loop_core r)) = dict_get g (group_records st)
  /\ consecutive_message_count (loop_core r) = consecutive_message_count st.
Proof.
  intros Hn Hmax. unfold _check_inactive_conversations_loop.
  apply (check_loop_terminal cfg g n); [assumption|assumption|].
  intros t [].
Qed.

(** ** The message manager *)

(** Only a request of type "主动消息" touches the core. *)
Lemma generate_and_send_body_core h st r :
  String.eqb (req_message_type r) "主动消息" = false ->
  fst (generate_and_send_body h st r) = st.
Proof.
  intros E. unfold generate_and_send_body. rewrite E.
  repeat case_match; reflexivity.
Qed.

Lemma generate_and_send_message_core h st r :
  String.eqb (req_message_type r) "主动消息" = false ->
  fst (generate_and_send_message h st r) = st.
Proof.
  intros E. unfold generate_and_send_message.
  pose proof (generate_and_send_body_core h st r E) as Hb.
  destruct (generate_and_send_body h st r) as [st' [x|e]]; simpl in *; [assumption|].
  destruct (is_Exception e); assumption.
Qed.

(** Every [Exception] is turned into [return False]. *)
Lemma generate_and_send_message_raises h st r e :
  snd (generate_and_send_message h st r) = Raise e -> is_Exception e = false.
Proof.
  unfold generate_and_send_message.
  destruct (generate_and_send_body h st r) as [st' [x|e']]; simpl; [discriminate|].
  destruct (is_Exception e') eqn:E; simpl; [discriminate|].
  now intros [= <-].
Qed.

(** ** The dispatcher *)

Lemma dispatch_request_type cfg h clk g cid umo n :
  String.eqb (req_message_type (dispatch_request cfg h clk g cid umo n)) "主动消息" = false.
Proof. reflexivity. Qed.

(** When the send returns, whatever it returns, the dispatcher commits. *)
Lemma dispatch_returned cfg h clk st g cid umo n result :
  whitelist_rejects cfg g = false ->
  read_next_count st g = Ok n ->
  n <= max_consecutive_messages cfg ->
  snd (generate_and_send_message h st (dispatch_request cfg h clk g cid umo n)) = Ok result ->
  _send_initiative_message cfg h clk st g cid umo
  = mkdispatch
      (commit_dispatch cfg clk st g cid umo n (time_period_of (hour (clock_period clk))))
      [dispatch_request cfg h clk g cid umo n] true None.
Proof.
  intros Hwl Hn Hmax Hsend. unfold _send_initiative_message.
  rewrite Hwl, Hn.
  destruct (Z.ltb_spec (max_consecutive_messages cfg) n); [lia|].
  pose proof (generate_and_send_message_core h st
                (dispatch_request cfg h clk g cid umo n)
                (dispatch_request_type _ _ _ _ _ _ _)) as Hcore.
  destruct (generate_and_send_message h st _) as [st1 [x|e]]; simpl in *;
    [now subst st1|discriminate].
Qed.

(** When an exception leaves the send, nothing is committed. *)
Lemma dispatch_raised cfg h clk st g cid umo n e :
  whitelist_rejects cfg g = false ->
  read_next_count st g = Ok n ->
  n <= max_consecutive_messages cfg ->
  snd (generate_and_send_message h st (dispatch_request cfg h clk g cid umo n)) = Raise e ->
  _send_initiative_message cfg h clk st g cid umo
  = mkdispatch st [dispatch_request cfg h clk g cid umo n] false (Some e).
Proof.
  intros Hwl Hn Hmax Hsend. unfold _send_initiative_message.
  rewrite Hwl, Hn.
  destruct (Z.ltb_spec (max_consecutive_messages cfg) n); [lia|].
  pose proof (generate_and_send_message_core h st
                (dispatch_request cfg h clk g cid umo n)
                (dispatch_request_type _ _ _ _ _ _ _)) as Hcore.
  pose proof (generate_and_send_message_raises h st
                (dispatch_request cfg h clk g cid umo n) e Hsend) as Hexc.
  destruct (generate_and_send_message h st _) as [st1 [x|e']]; simpl in *;
    [discriminate|].
  injection Hsend as ->. subst st1. now rewrite Hexc.
Qed.

(** The guard: a count already at the maximum aborts before any send. *)
Lemma dispatch_guarded cfg h clk st g cid umo n :
  read_next_count st g = Ok n ->
  max_consecutive_messages cfg < n ->
  _send_initiative_message cfg h clk st g cid umo = mkdispatch st [] false None.
Proof.
  intros Hn Hmax. unfold _send_initiative_message.
  destruct (whitelist_rejects cfg g); [reflexivity|].
  rewrite Hn.
  destruct (Z.ltb_spec (max_consecutive_messages cfg) n); [reflexivity|lia].
Qed.

Section commit_facts.
Variables (cfg : config) (clk : dispatch_clock) (st : core) (g : string)
          (cid umo : pyval) (n : Z) (tp : string).
Let st' := commit_dispatch cfg clk st g cid umo n tp.

Lemma commit_count : dict_get g (consecutive_message_count st') = Some (PInt n).
Proof.
  subst st'. unfold commit_dispatch.
  destruct (n <? max_consecutive_messages cfg); simpl; apply dict_get_set_eq.
Qed.

Lemma commit_count_other g' :
  g' <> g ->
  dict_get g' (consecutive_message_count st') = dict_get g' (consecutive_message_count st).
Proof.
  intros Hne. subst st'. unfold commit_dispatch.
  destruct (n <? max_consecutive_messages cfg); simpl; now apply dict_get_set_ne.
Qed.

Lemma commit_type_info :
  dict_get g (last_initiative_types st') = Some (type_info n tp (clock_type_info clk)).
Proof.
  subst st'. unfold commit_dispatch.
  destruct (n <? max_consecutive_messages cfg); simpl; apply dict_get_set_eq.
Qed.

Lemma commit_last_message :
  dict_get g (last_initiative_messages st')
  = Some (activity_record (clock_sent clk) cid umo).
Proof.
  subst st'. unfold commit_dispatch.
  destruct (n <? max_consecutive_messages cfg); simpl; apply dict_get_set_eq.
Qed.

Lemma commit_received :
  groups_received_initiative st' = {[ g ]} ∪ groups_received_initiative st.
Proof.
  subst st'. unfold commit_dispatch.
  destruct (n <? max_consecutive_messages cfg); reflexivity.
Qed.

Lemma commit_rearmed :
  n < max_consecutive_messages cfg ->
  dict_get g (group_records st') = Some (activity_record (clock_sent clk) cid umo).
Proof.
  intros Hlt. subst st'. unfold commit_dispatch.
  destruct (Z.ltb_spec n (max_consecutive_messages cfg)); [|lia].
  simpl. apply dict_get_set_eq.
Qed.

Lemma commit_not_rearmed :
  max_consecutive_messages cfg <= n -> group_records st' = group_records st.
Proof.
  intros Hge. subst st'. unfold commit_dispatch.
  destruct (Z.ltb_spec n (max_consecutive_messages cfg)); [lia|reflexivity].
Qed.
End commit_facts.

(** C1.  When the send of a dispatch succeeds, the dispatcher commits
    consecutive_message_count[group] = next_count, the count it started
    from plus 1 (which is the group's consecutive_message_count plus 1
    when the two copies of the count agree), together with the tier
    metadata, the last-message record and the awaiting-reply mark; below
    max_consecutive_messages the activity record is re-created with the
    time read after the send, at max_consecutive_messages the activity
    records are left as they were. *)
Theorem dispatch_success_commits cfg h clk st g cid umo k ev system_prompt :
  whitelist_rejects cfg g = false ->
  read_current_count st g = Ok (PInt k) ->
  k + 1 <= max_consecutive_messages cfg ->
  snd (generate_and_send_message h st (dispatch_request cfg h clk g cid umo (k + 1)))
  = Ok (LlmRequest ev system_prompt) ->
  let r := _send_initiative_message cfg h clk st g cid umo in
  let st' := dispatch_core r in
  dispatch_exn r = None
  /\ dict_get g (consecutive_message_count st') = Some (PInt (k + 1))
  /\ dict_get g (last_initiative_types st')
     = Some (type_info (k + 1) (time_period_of (hour (clock_period clk)))
               (clock_type_info clk))
  /\ dict_get g (last_initiative_messages st')
     = Some (activity_record (clock_sent clk) cid umo)
  /\ g ∈ groups_received_initiative st'
  /\ (k + 1 < max_consecutive_messages cfg ->
      dict_get g (group_records st') = Some (activity_record (clock_sent clk) cid umo))
  /\ (k + 1 = max_consecutive_messages cfg -> group_records st' = group_records st)
  /\ (counts_agree st g ->
      dict_get_default g (PInt 0) (consecutive_message_count st) = PInt k).
Proof.
  intros Hwl Hcur Hmax Hsend r st'.
  assert (read_next_count st g = Ok (k + 1)) as Hn.
  { unfold read_next_count. now rewrite Hcur. }
  subst st' r. rewrite (dispatch_returned _ _ _ _ _ _ _ _ _ Hwl Hn Hmax Hsend). simpl.
  split; [reflexivity|].
  split; [apply commit_count|].
  split; [apply commit_type_info|].
  split; [apply commit_last_message|].
  split; [rewrite commit_received; set_solver|].
  split; [apply commit_rearmed|].
  split; [intros E; apply commit_not_rearmed; lia|].
  intros Hagree. unfold read_current_count in Hcur.
  destruct (dict_get g (last_initiative_types st)) as [info|] eqn:Hinfo.
  - rewrite (Hagree info Hinfo) in Hcur. now injection Hcur.
  - now injection Hcur.
Qed.

Lemma dispatch_sends_of cfg h clk st g cid umo n :
  whitelist_rejects cfg g = false ->
  read_next_count st g = Ok n ->
  n <= max_consecutive_messages cfg ->
  dispatch_sends (_send_initiative_message cfg h clk st g cid umo)
  = [dispatch_request cfg h clk g cid umo n].
Proof.
  intros Hwl Hn Hmax.
  destruct (snd (generate_and_send_message h st (dispatch_request cfg h clk g cid umo n)))
    as [x|e] eqn:Hsend.
  - now rewrite (dispatch_returned _ _ _ _ _ _ _ _ _ Hwl Hn Hmax Hsend).
  - now rewrite (dispatch_raised _ _ _ _ _ _ _ _ _ Hwl Hn Hmax Hsend).
Qed.

Lemma read_next_count_committed cfg clk st g cid umo n tp :
  read_next_count (commit_dispatch cfg clk st g cid umo n tp) g = Ok (n + 1).
Proof.
  unfold read_next_count, read_current_count.
  now rewrite commit_type_info.
Qed.

(** C9, as the code has it.  Re-running the dispatcher for the same group,
    conversation and origin right after a successful dispatch is a no-op
    (same core, no send, no flush) when that dispatch brought the count to
    max_consecutive_messages: the guard sees next_count above the maximum.
    After a successful dispatch below the maximum the guard lets the
    re-run through, and it calls the message manager again. *)
Theorem rerun_after_success cfg h clk h2 clk2 st g cid umo k ev system_prompt :
  whitelist_rejects cfg g = false ->
  read_current_count st g = Ok (PInt k) ->
  k + 1 <= max_consecutive_messages cfg ->
  snd (generate_and_send_message h st (dispatch_request cfg h clk g cid umo (k + 1)))
  = Ok (LlmRequest ev system_prompt) ->
  let r1 := _send_initiative_message cfg h clk st g cid umo in
  let r2 := _send_initiative_message cfg h2 clk2 (dispatch_core r1) g cid umo in
  (k + 1 = max_consecutive_messages cfg ->
   r2 = mkdispatch (dispatch_core r1) [] false None)
  /\ (k + 1 < max_consecutive_messages cfg ->
      dispatch_sends r2 = [dispatch_request cfg h2 clk2 g cid umo (k + 1 + 1)]).
Proof.
  intros Hwl Hcur Hmax Hsend r1 r2.
  assert (read_next_count st g = Ok (k + 1)) as Hn.
  { unfold read_next_count. now rewrite Hcur. }
  subst r2 r1. rewrite (dispatch_returned _ _ _ _ _ _ _ _ _ Hwl Hn Hmax Hsend). simpl.
  split; intros Hk.
  - apply (dispatch_guarded _ _ _ _ _ _ _ (k + 1 + 1));
      [apply read_next_count_committed|lia].
  - apply dispatch_sends_of; [assumption|apply read_next_count_committed|lia].
Qed.

(** ** The activity reset path *)

(** C7.  A group message whose text carries the "[SYS_PROMPT]" marker is
    dropped by the handler before anything is touched: the core is
    returned as it was (activity records, counts, tier metadata and marker
    set), nothing is saved and nothing is raised. *)
Theorem marked_message_is_ignored ev st :
  str_contains "[SYS_PROMPT]" (message_str ev) = true ->
  on_group_message ev st = mkhandler st false None.
Proof.
  intros Hmark. unfold on_group_message.
  destruct (String.eqb (event_group_id ev) ""); [reflexivity|].
  unfold system_marker. now rewrite Hmark.
Qed.

(** ** Reachable states *)

Lemma counted_is_marked_commit cfg clk st g cid umo n tp :
  counted_is_marked st ->
  counted_is_marked (commit_dispatch cfg clk st g cid umo n tp).
Proof.
  intros Hinv g'. rewrite commit_received.
  destruct (decide (g' = g)) as [->|Hne]; [left; set_solver|].
  destruct (Hinv g') as [Hin|Hzero]; [left; set_solver|right].
  unfold dict_get_default in *. now rewrite commit_count_other.
Qed.

Lemma counted_is_marked_dispatch cfg h clk st g cid umo :
  counted_is_marked st ->
  counted_is_marked (dispatch_core (_send_initiative_message cfg h clk st g cid umo)).
Proof.
  intros Hinv. unfold _send_initiative_message.
  destruct (whitelist_rejects cfg g); [assumption|].
  destruct (read_next_count st g) as [n|e]; [|assumption].
  destruct (max_consecutive_messages cfg <? n); [assumption|].
  pose proof (generate_and_send_message_core h st
                (dispatch_request cfg h clk g cid umo n)
                (dispatch_request_type _ _ _ _ _ _ _)) as Hcore.
  destruct (generate_and_send_message h st _) as [st1 [x|e]]; simpl in *; subst st1.
  - now apply counted_is_marked_commit.
  - destruct (is_Exception e); assumption.
Qed.

Lemma reset_type_info_others g st st' :
  reset_type_info g st = Ok st' ->
  consecutive_message_count st' = consecutive_message_count st
  /\ groups_received_initiative st' = groups_received_initiative st.
Proof.
  unfold reset_type_info.
  destruct (dict_get g (last_initiative_types st)) as [info|].
  - destruct (py_setitem info "count" (PInt 0)); simpl; [|discriminate].
    now intros [= <-].
  - now intros [= <-].
Qed.

Lemma counted_is_marked_message ev st :
  counted_is_marked st ->
  counted_is_marked (handler_core (on_group_message ev st)).
Proof.
  intros Hinv. unfold on_group_message.
  destruct (String.eqb (event_group_id ev) ""); [assumption|].
  destruct (str_contains system_marker (message_str ev)); [assumption|].
  unfold handle_group_message.
  destruct (curr_conversation_id ev) as [c|e]; simpl; [|assumption].
  destruct (bool_decide _); [|assumption].
  assert (forall s, counted_is_marked
            (mkcore (dict_set (event_group_id ev) (PInt 0) (consecutive_message_count st))
                    (group_records s) (last_initiative_messages s)
                    (groups_received_initiative st ∖ {[ event_group_id ev ]})
                    (last_initiative_types s))) as Hreset.
  { intros s g. simpl.
    destruct (decide (g = event_group_id ev)) as [->|Hne].
    - right. apply dict_get_default_set_eq.
    - destruct (Hinv g) as [Hin|Hzero]; [left; set_solver|right].
      now rewrite dict_get_default_set_ne. }
  destruct (reset_type_info _ _) as [st3|e] eqn:Hr; simpl.
  - destruct (reset_type_info_others _ _ _ Hr) as [Hc Hg]. simpl in Hc, Hg.
    intros g. specialize (Hreset st3 g). simpl in *.
    unfold set_groups_received_initiative. simpl. rewrite Hc, Hg. exact Hreset.
  - intros g. simpl.
    destruct (decide (g = event_group_id ev)) as [->|Hne].
    + right. apply dict_get_default_set_eq.
    + destruct (Hinv g) as [Hin|Hzero]; [now left|right].
      now rewrite dict_get_default_set_ne.
Qed.

Lemma counted_is_marked_tick cfg w st :
  counted_is_marked st -> counted_is_marked (scan_core (scan_tick cfg w st)).
Proof.
  intros Hinv g. destruct (scan_tick_counts cfg w st) as (-> & -> & _). apply Hinv.
Qed.

Lemma reachable_counted_is_marked cfg st : reachable cfg st -> counted_is_marked st.
Proof.
  induction 1 as [|st st' _ IH Hstep].
  - intros g. now right.
  - destruct Hstep.
    + now apply counted_is_marked_message.
    + now apply counted_is_marked_tick.
    + now apply counted_is_marked_dispatch.
Qed.

(** C10.  In every state reached from the initial one by the in-memory
    operations (dispatches, handled group messages, marked messages,
    scanner ticks), a group whose consecutive_message_count is greater
    than 0 is in groups_received_initiative, the set the handler gates the
    reset on. *)
Theorem positive_count_is_marked cfg st g n :
  reachable cfg st ->
  dict_get g (consecutive_message_count st) = Some (PInt n) ->
  0 < n ->
  g ∈ groups_received_initiative st.
Proof.
  intros Hreach Hget Hpos.
  destruct (reachable_counted_is_marked cfg st Hreach g) as [Hin|Hzero]; [assumption|].
  unfold dict_get_default in Hzero. rewrite Hget in Hzero.
  injection Hzero as ->. lia.
Qed.

(** C6.  In every reachable state, whatever the group's count (the
    maximum included), a group message without the marker that the
    handler processes to its end leaves the group's
    consecutive_message_count at 0. *)
Theorem genuine_message_zeroes_count cfg st ev :
  reachable cfg st ->
  event_group_id ev <> "" ->
  str_contains "[SYS_PROMPT]" (message_str ev) = false ->
  handler_exn (on_group_message ev st) = None ->
  dict_get_default (event_group_id ev) (PInt 0)
    (consecutive_message_count (handler_core (on_group_message ev st)))
  = PInt 0.
Proof.
  intros Hreach Hgid Hmark Hret.
  pose proof (reachable_counted_is_marked cfg st Hreach (event_group_id ev)) as Hinv.
  revert Hret. unfold on_group_message.
  apply String.eqb_neq in Hgid. rewrite Hgid.
  unfold system_marker. rewrite Hmark.
  unfold handle_group_message.
  destruct (curr_conversation_id ev) as [c|e]; simpl; [|discriminate].
  destruct (bool_decide_reflect
              (event_group_id ev ∈ groups_received_initiative st)) as [Hin|Hout].
  - destruct (reset_type_info _ _) as [st3|e] eqn:Hr; simpl; [|discriminate].
    intros _. destruct (reset_type_info_others _ _ _ Hr) as [-> _]. simpl.
    apply dict_get_default_set_eq.
  - intros _. simpl. destruct Hinv as [Hin|Hzero]; [contradiction|assumption].
Qed.

(** The two copies of the count agree in every reachable state. *)
Lemma counts_agree_commit cfg clk st g cid umo n tp :
  (forall g', counts_agree st g') ->
  forall g', counts_agree (commit_dispatch cfg clk st g cid umo n tp) g'.
Proof.
  intros Hinv g' info. destruct (decide (g' = g)) as [->|Hne].
  - rewrite commit_type_info. intros [= <-].
    unfold dict_get_default. now rewrite commit_count.
  - unfold commit_dispatch, dict_get_default.
    destruct (n <? max_consecutive_messages cfg); simpl;
      rewrite !dict_get_set_ne by assumption; apply Hinv.
Qed.

Lemma counts_agree_message ev st :
  (forall g, counts_agree st g) ->
  forall g, counts_agree (handler_core (on_group_message ev st)) g.
Proof.
  intros Hinv. unfold on_group_message.
  destruct (String.eqb (event_group_id ev) ""); [assumption|].
  destruct (str_contains system_marker (message_str ev)); [assumption|].
  unfold handle_group_message.
  destruct (curr_conversation_id ev) as [c|e]; simpl; [|assumption].
  destruct (bool_decide _); [|exact Hinv].
  unfold reset_type_info. simpl.
  destruct (dict_get (event_group_id ev) (last_initiative_types st)) as [info|] eqn:Hinfo.
  - pose proof (Hinv _ info Hinfo) as Hget.
    destruct info; try discriminate. simpl.
    intros g info'. unfold counts_agree, dict_get_default. simpl.
    destruct (decide (g = event_group_id ev)) as [->|Hne].
    + rewrite !dict_get_set_eq. intros [= <-]. simpl.
      unfold dict_get_default. now rewrite dict_get_set_eq.
    + rewrite !dict_get_set_ne by assumption. apply Hinv.
  - simpl. intros g info'. unfold counts_agree, dict_get_default. simpl.
    destruct (decide (g = event_group_id ev)) as [->|Hne].
    + now rewrite Hinfo.
    + rewrite !dict_get_set_ne by assumption. apply Hinv.
Qed.

Lemma reachable_counts_agree cfg st : reachable cfg st -> forall g, counts_agree st g.
Proof.
  induction 1 as [|st st' _ IH Hstep].
  - intros g info. discriminate.
  - destruct Hstep.
    + now apply counts_agree_message.
    + intros g info. destruct (scan_tick_counts cfg w st) as (-> & _ & -> & _).
      apply IH.
    + unfold _send_initiative_message.
      destruct (whitelist_rejects cfg g); [assumption|].
      destruct (read_next_count st g) as [n|e]; [|assumption].
      destruct (max_consecutive_messages cfg <? n); [assumption|].
      pose proof (generate_and_send_message_core h st
                    (dispatch_request cfg h clk g cid umo n)
                    (dispatch_request_type _ _ _ _ _ _ _)) as Hcore.
      destruct (generate_and_send_message h st _) as [st1 [x|e]]; simpl in *; subst st1.
      * now apply counts_agree_commit.
      * destruct (is_Exception e); assumption.
Qed.

(** ** The scanner loop *)

(** An exception raised inside an iteration ends the coroutine: the
    [try] is outside the [while True]. *)
Lemma check_loop_exception cfg w rest st e :
  wake_cancelled w = false ->
  scan_exn (scan_tick cfg w st) = Some e ->
  is_Exception e = true ->
  _check_inactive_conversations_loop cfg (w :: rest) st
  = mkloop (scan_core (scan_tick cfg w st)) (scan_tasks (scan_tick cfg w st)) 1
           (Returned e).
Proof.
  intros Hc He Hexc. unfold _check_inactive_conversations_loop. simpl.
  now rewrite Hc, He, Hexc.
Qed.

(** An iteration that raises nothing is followed by the next one. *)
Lemma check_loop_continues cfg w rest st :
  wake_cancelled w = false ->
  scan_exn (scan_tick cfg w st) = None ->
  forall submitted ticks,
    check_loop cfg (w :: rest) st submitted ticks
    = check_loop cfg rest (scan_core (scan_tick cfg w st))
        (submitted ++ scan_tasks (scan_tick cfg w st))%list (S ticks).
Proof. intros Hc He submitted ticks. simpl. now rewrite Hc, He. Qed.

(** C4, on the code.  The core loaded from a data file whose record has no
    conversation id: at the first tick inside the activity window the
    group is eligible, reading the record's conversation id raises
    KeyError, and the coroutine returns; whatever wake-ups would follow,
    one iteration is all that runs and nothing is ever submitted. *)
Theorem loop_ends_on_first_exception (rest : list wakeup) :
  let st := load_data_from_storage afternoon file_without_conversation init_core in
  dict_get group1 (group_records st)
  = Some (PDict [("timestamp", PDatetime morning); ("unified_msg_origin", origin1)])
  /\ _check_inactive_conversations_loop default_config (wake_afternoon :: rest) st
     = mkloop st [] 1 (Returned KeyError).
Proof. split; reflexivity. Qed.

(** The same with a failure that passes: the scheduler fails at the first
    tick and would accept the group's task at the second, which never
    comes. *)
Lemma loop_ends_on_scheduler_failure :
  _check_inactive_conversations_loop default_config
    [wake_scheduler_down; wake_afternoon] core_armed
  = mkloop core_armed [] 1 (Returned ExternalError)
  /\ length (scan_tasks (scan_tick default_config wake_afternoon core_armed)) = 1%nat.
Proof. split; reflexivity. Qed.

(** ** Submission of eligible groups *)

Lemma scan_records_keeps cfg schedule now snapshot st submitted t :
  In t submitted -> In t (scan_tasks (scan_records cfg schedule now snapshot st submitted)).
Proof.
  revert st submitted.
  induction snapshot as [|[g record] rest IH]; intros st submitted Hin; simpl; [assumption|].
  destruct (scan_group cfg _ now g record) as [[t'|]|e]; simpl; auto.
  destruct (schedule t'); simpl; auto.
  apply IH. apply in_or_app. now left.
Qed.

Lemma scan_records_submits cfg schedule now counts g record t snapshot st submitted :
  consecutive_message_count st = counts ->
  In (g, record) snapshot ->
  scan_group cfg counts now g record = Ok (Some t) ->
  scan_exn (scan_records cfg schedule now snapshot st submitted) = None ->
  In t (scan_tasks (scan_records cfg schedule now snapshot st submitted)).
Proof.
  intros Hc Hin Hscan. revert st submitted Hc.
  induction snapshot as [|[g' record'] rest IH]; intros st submitted Hc; simpl; [destruct Hin|].
  destruct Hin as [[= -> ->]|Hin].
  - rewrite Hc, Hscan.
    destruct (schedule t); simpl; [|discriminate].
    intros _. apply scan_records_keeps. apply in_or_app. right. now left.
  - destruct (scan_group cfg _ now g' record') as [[t'|]|e]; simpl; try discriminate.
    + destruct (schedule t'); simpl; [|discriminate].
      now apply IH.
    + now apply IH.
Qed.

Lemma drawn_from_range_bounds ticks_per_unit t d :
  drawn_from_range ticks_per_unit t d = true
  <-> ticks_per_unit * min_delay t <= d <= ticks_per_unit * max_delay t.
Proof.
  unfold drawn_from_range. rewrite andb_true_iff, !Z.leb_le. reflexivity.
Qed.

(** C5, as the code has it.  For a group the tick finds eligible (inside
    the activity window, not rejected by the whitelist, count below the
    maximum, inactive for at least inactive_time_seconds) in a tick that
    raises nothing, and a configured delay of 0 <= max_response_delay_seconds
    < 60 * 2^48, the scanner submits a task carrying the group id, the
    record's conversation id and origin, with the random delay on, lower
    bound 0 and upper bound int(max_response_delay_seconds / 60), the
    configured seconds in whole minutes.  A delay drawn from that range,
    the unit of the range being a minute or shorter, lies between 0 and
    max_response_delay_seconds seconds; and a configured delay of less
    than 60 makes the range 0 .. 0, so the delay is 0 in every unit. *)
Theorem eligible_group_is_submitted cfg w st g record last_active cid umo n :
  (time_limit_enabled cfg = true -> in_activity_window cfg (wake_hour_clock w) = true) ->
  dict_get g (group_records st) = Some record ->
  whitelist_rejects cfg g = false ->
  py_int (dict_get_default g (PInt 0) (consecutive_message_count st)) = Ok n ->
  n < max_consecutive_messages cfg ->
  py_get record "timestamp" PNone = Ok (PDatetime last_active) ->
  elapsed_at_least (wake_now w) last_active (inactive_time_seconds cfg) = true ->
  py_getitem record "conversation_id" = Ok cid ->
  py_getitem record "unified_msg_origin" = Ok umo ->
  scan_exn (scan_tick cfg w st) = None ->
  0 <= max_response_delay_seconds cfg < 60 * 2 ^ 48 ->
  exists t,
    In t (scan_tasks (scan_tick cfg w st))
    /\ task_group_id t = g
    /\ task_conversation_id t = cid
    /\ task_unified_msg_origin t = umo
    /\ random_delay t = true
    /\ min_delay t = 0
    /\ max_delay t = Z.quot (max_response_delay_seconds cfg) 60
    /\ (forall ticks_per_second ticks_per_unit d,
          0 <= ticks_per_unit <= 60 * ticks_per_second ->
          drawn_from_range ticks_per_unit t d = true ->
          0 <= d <= ticks_per_second * max_response_delay_seconds cfg)
    /\ (max_response_delay_seconds cfg < 60 ->
        forall ticks_per_unit d,
          drawn_from_range ticks_per_unit t d = true -> d = 0).
Proof.
  intros Hwin Hrec Hwl Hn Hmax Hts Hel Hcid Humo Hexn [Hnonneg _].
  set (t := {| task_id := "group_initiative_" +:+ g +:+ "_"
                          +:+ pretty (timestamp_seconds (wake_now w));
               random_delay := true; min_delay := 0;
               max_delay := Z.quot (max_response_delay_seconds cfg) 60;
               task_group_id := g; task_conversation_id := cid;
               task_unified_msg_origin := umo |}).
  assert (scan_group cfg (consecutive_message_count st) (wake_now w) g record
          = Ok (Some t)) as Hscan.
  { unfold scan_group. rewrite Hwl, Hn. simpl.
    destruct (Z.leb_spec (max_consecutive_messages cfg) n); [lia|].
    rewrite Hts. simpl. rewrite Hel, Hcid, Humo. reflexivity. }
  assert (In t (scan_tasks (scan_tick cfg w st))) as Hin.
  { revert Hexn. unfold scan_tick.
    destruct (time_limit_enabled cfg) eqn:Htl; simpl.
    - rewrite (Hwin eq_refl). simpl. intros Hexn.
      eapply scan_records_submits; eauto using dict_get_In.
    - intros Hexn. eapply scan_records_submits; eauto using dict_get_In. }
  exists t. do 7 (split; [assumption || reflexivity|]).
  pose proof (Z.quot_rem' (max_response_delay_seconds cfg) 60) as Hqr.
  pose proof (Z.rem_bound_pos (max_response_delay_seconds cfg) 60 Hnonneg ltac:(lia))
    as Hrem.
  pose proof (Z.quot_pos (max_response_delay_seconds cfg) 60 Hnonneg ltac:(lia))
    as Hquot.
  split.
  - intros ticks_per_second ticks_per_unit d Hunit Hd.
    apply drawn_from_range_bounds in Hd. cbn [min_delay max_delay t] in Hd.
    assert (ticks_per_unit * (max_response_delay_seconds cfg ÷ 60)
            <= 60 * ticks_per_second * (max_response_delay_seconds cfg ÷ 60))
      as Hscale by (apply Z.mul_le_mono_nonneg_r; lia).
    assert (0 <= ticks_per_second * Z.rem (max_response_delay_seconds cfg) 60)
      as Hrest by (apply Z.mul_nonneg_nonneg; lia).
    split; [lia|]. nia.
  - intros Hshort ticks_per_unit d Hd.
    apply drawn_from_range_bounds in Hd. cbn [min_delay max_delay t] in Hd.
    rewrite (Z.quot_small _ 60) in Hd by lia. lia.
Qed.

(** C5 as stated fails.  With max_response_delay_seconds = 59 the task
    submitted for the eligible group has the range 0 .. int(59 / 60), that
    is 0 .. 0.  Whatever the unit in which the scheduler reads the range,
    whatever the resolution of its clock and whichever delays inside the
    range it can choose, a delay of 59 seconds is none of them, so its
    delays are not the whole of [0, 59] seconds. *)
Lemma submitted_range_is_not_configured_seconds :
  exists t,
    In t (scan_tasks (scan_tick config_short_delay wake_afternoon core_armed))
    /\ task_group_id t = group1
    /\ min_delay t = 0
    /\ max_delay t = 0
    /\ forall (possible : Z -> Prop) ticks_per_unit ticks_per_second,
         1 <= ticks_per_second ->
         (forall d, possible d -> drawn_from_range ticks_per_unit t d = true) ->
         ~ delay_over_configured_seconds config_short_delay ticks_per_second possible.
Proof.
  exists (mktask "group_initiative_g1_1709992800" true 0 0 group1 conversation1 origin1).
  split; [left; reflexivity|]. do 3 (split; [reflexivity|]).
  intros possible ticks_per_unit ticks_per_second Hres Hrange Hclaim.
  destruct (Hclaim (ticks_per_second * 59)) as [_ Hback].
  assert (possible (ticks_per_second * 59)) as Hp.
  { apply Hback. cbn [max_response_delay_seconds config_short_delay]. lia. }
  apply Hrange, drawn_from_range_bounds in Hp. cbn [min_delay max_delay] in Hp. lia.
Qed.

(** ** Failure of the send *)

(** C3, on the code.  The host knows no conversation for the id, so
    [generate_and_send_message] logs the error and returns False; the
    dispatcher does not look at the result and commits as after a send:
    the count becomes 1, the tier metadata is written, the group is marked
    as awaiting a reply, its activity record is re-created and the
    snapshot is saved. *)
Theorem failed_send_is_committed :
  let r := _send_initiative_message default_config host_no_conversation clock1
             init_core group1 conversation1 origin1 in
  let st' := dispatch_core r in
  (exists req,
      dispatch_sends r = [req]
      /\ generate_and_send_message host_no_conversation init_core req
         = (init_core, Ok SendFalse))
  /\ dispatch_exn r = None
  /\ dispatch_saved r = true
  /\ dict_get group1 (consecutive_message_count st') = Some (PInt 1)
  /\ dict_get group1 (last_initiative_types st')
     = Some (type_info 1 "下午" (clock_type_info clock1))
  /\ dict_get group1 (last_initiative_messages st')
     = Some (activity_record (clock_sent clock1) conversation1 origin1)
  /\ group1 ∈ groups_received_initiative st'
  /\ dict_get group1 (group_records st')
     = Some (activity_record (clock_sent clock1) conversation1 origin1).
Proof.
  intros r st'. subst st' r.
  rewrite (dispatch_returned default_config host_no_conversation clock1 init_core
             group1 conversation1 origin1 1 SendFalse);
    [|reflexivity|reflexivity|simpl; lia|reflexivity].
  cbn [dispatch_core dispatch_sends dispatch_saved dispatch_exn].
  split; [eexists; split; reflexivity|].
  repeat split; reflexivity.
Qed.

(** C9 as stated fails: with the default maximum of 3, the first dispatch
    for a fresh group succeeds and leaves the count at 1; run again, the
    dispatcher passes the guard (2 is not above 3) and sends again. *)
Lemma rerun_below_max_sends_again :
  ~ rerun_is_noop default_config host_ok clock1 init_core group1 conversation1 origin1.
Proof.
  intros Hnoop. destruct Hnoop as [_ Hsends].
  - do 3 eexists. split; reflexivity.
  - rewrite (dispatch_sends_of _ _ _ _ _ _ _ 2) in Hsends;
      [discriminate|reflexivity|reflexivity|simpl; lia].
Qed.

(** ** ISO text of a datetime *)

Lemma digit_val_digit d : 0 <= d < 10 -> digit_val (digit d) = Some d.
Proof.
  intros Hd.
  assert (d = 0 \/ d = 1 \/ d = 2 \/ d = 3 \/ d = 4 \/ d = 5 \/ d = 6 \/ d = 7
          \/ d = 8 \/ d = 9) as Hcases by lia.
  repeat (destruct Hcases as [->|Hcases]; [reflexivity|]).
  subst d. reflexivity.
Qed.

Lemma append_String c s rest : String c s +:+ rest = String c (s +:+ rest).
Proof. reflexivity. Qed.

Lemma append_empty_l s : "" +:+ s = s.
Proof. reflexivity. Qed.

Lemma parse_num_zpad w : forall n acc rest,
  0 <= n < 10 ^ Z.of_nat w ->
  parse_num w acc (zpad w n +:+ rest) = Some (acc * 10 ^ Z.of_nat w + n, rest).
Proof.
  induction w as [|w IH]; intros n acc rest Hn.
  - simpl in *. f_equal. f_equal. lia.
  - rewrite Nat2Z.inj_succ, Z.pow_succ_r in * by lia.
    assert (0 < 10 ^ Z.of_nat w) as Hpow by (apply Z.pow_pos_nonneg; lia).
    assert (0 <= n / 10 ^ Z.of_nat w < 10) as Hq.
    { split; [apply Z.div_pos; lia|apply Z.div_lt_upper_bound; lia]. }
    pose proof (Z.mod_pos_bound n (10 ^ Z.of_nat w) Hpow) as Hr.
    pose proof (Z.div_mod n (10 ^ Z.of_nat w) ltac:(lia)) as Hdm.
    cbn [zpad]. rewrite append_String. cbn [parse_num].
    rewrite (digit_val_digit _ Hq), (IH _ _ _ Hr).
    f_equal. f_equal. lia.
Qed.

Lemma append_empty_r s : s +:+ "" = s.
Proof.
  induction s as [|c s IH]; [reflexivity|]. rewrite append_String. now rewrite IH.
Qed.

Lemma days_in_month_bound y m : days_in_month y m <= 31.
Proof. unfold days_in_month. repeat case_match; lia. Qed.

Lemma valid_datetime_ranges t :
  valid_datetime t = true ->
  0 <= year t < 10000 /\ 0 <= month t < 100 /\ 0 <= day t < 100
  /\ 0 <= hour t < 100 /\ 0 <= minute t < 100 /\ 0 <= second t < 100
  /\ 0 <= microsecond t < 1000000.
Proof.
  unfold valid_datetime, valid_date.
  rewrite !andb_true_iff, !Z.leb_le, !Z.ltb_lt.
  pose proof (days_in_month_bound (year t) (month t)). lia.
Qed.

(** After a number has been read: expose the separator and check it. *)
Ltac next_field :=
  rewrite ?append_String, ?append_empty_l;
  cbn [mbind option_bind expect parse_fraction Ascii.eqb Bool.eqb].

(** Parsing the ISO text of a valid datetime gives the datetime back, to
    the microsecond. *)
Lemma fromisoformat_isoformat t :
  valid_datetime t = true -> fromisoformat (isoformat t) = Ok t.
Proof.
  intros Hvalid.
  destruct (valid_datetime_ranges t Hvalid) as (Hy & Hm & Hd & Hh & Hmi & Hs & Hus).
  assert (parse_iso (isoformat t) = Some t) as Hparse.
  { unfold parse_iso, isoformat.
    rewrite (parse_num_zpad 4) by (simpl; lia). next_field.
    rewrite (parse_num_zpad 2) by (simpl; lia). next_field.
    rewrite (parse_num_zpad 2) by (simpl; lia). next_field.
    unfold parse_time.
    rewrite (parse_num_zpad 2) by (simpl; lia). next_field.
    rewrite (parse_num_zpad 2) by (simpl; lia). next_field.
    destruct (Z.eqb_spec (microsecond t) 0) as [Hz|Hnz].
    - rewrite append_empty_r.
      rewrite <- (append_empty_r (zpad 2 (second t))).
      rewrite (parse_num_zpad 2) by (simpl; lia).
      cbn [parse_fraction mbind option_bind]. destruct t; simpl in *. subst.
      do 2 f_equal; lia.
    - next_field.
      rewrite (parse_num_zpad 2) by (simpl; lia).
      cbn [mbind option_bind parse_fraction Ascii.eqb Bool.eqb].
      rewrite <- (append_empty_r (zpad 6 (microsecond t))).
      rewrite (parse_num_zpad 6) by (simpl; lia).
      cbn [mbind option_bind]. destruct t; simpl in *.
      do 2 f_equal; lia. }
  unfold fromisoformat. now rewrite Hparse, Hvalid.
Qed.

(** ** Saving and loading *)

Lemma prepare_scalar v : scalar v = true -> prepare_value v = v.
Proof. destruct v; simpl; (discriminate || reflexivity). Qed.

Lemma dict_get_prepare k (r : dict) :
  dict_get k (map prepare_field r) = option_map prepare_value (dict_get k r).
Proof.
  induction r as [|[k' v] r IH]; simpl; [reflexivity|].
  destruct (String.eqb k k'); [reflexivity|exact IH].
Qed.

Lemma dict_set_same {V} k (v : V) d : dict_get k d = Some v -> dict_set k v d = d.
Proof.
  induction d as [|[k' v'] d IH]; simpl; [discriminate|].
  destruct (String.eqb k k') eqn:E.
  - apply String.eqb_eq in E. now intros [= ->]; subst.
  - intros H. now rewrite IH.
Qed.

(** Without a "timestamp" key a shaped record holds scalars only. *)
Lemma prepare_fields_without_timestamp (r : dict) :
  forallb field_shaped r = true ->
  dict_get "timestamp" r = None ->
  map prepare_field r = r.
Proof.
  induction r as [|[k v] r IH]; cbn [map forallb dict_get fst snd]; [reflexivity|].
  intros [Hf Hr]%andb_prop. destruct (String.eqb "timestamp" k) eqn:E; [discriminate|].
  intros Hget. rewrite (IH Hr Hget). f_equal. f_equal.
  unfold field_shaped in Hf. cbn [fst snd] in Hf. rewrite E in Hf.
  destruct v; cbn in *; (discriminate || reflexivity).
Qed.

(** Putting the timestamp back restores the record. *)
Lemma restore_timestamp (r : dict) v :
  unique_keys r = true ->
  forallb field_shaped r = true ->
  dict_get "timestamp" r = Some v ->
  dict_set "timestamp" v (map prepare_field r) = r.
Proof.
  induction r as [|[k v'] r IH];
    cbn [map forallb dict_get dict_set unique_keys fst snd]; [discriminate|].
  intros [Hu Hur]%andb_prop [Hf Hr]%andb_prop.
  destruct (String.eqb "timestamp" k) eqn:E.
  - intros [= ->]. apply String.eqb_eq in E. subst k.
    rewrite prepare_fields_without_timestamp; [reflexivity|assumption|].
    unfold dict_mem in Hu. now destruct (dict_get "timestamp" r).
  - intros Hget. rewrite (IH Hur Hr Hget). f_equal. f_equal.
    unfold field_shaped in Hf. cbn [fst snd] in Hf. rewrite E in Hf.
    destruct v'; cbn in *; (discriminate || reflexivity).
Qed.

Lemma field_shaped_timestamp (r : dict) v :
  forallb field_shaped r = true ->
  dict_get "timestamp" r = Some v ->
  (exists t, v = PDatetime t /\ valid_datetime t = true)
  \/ (scalar v = true /\ forall s, v <> PStr s).
Proof.
  induction r as [|[k v'] r IH]; cbn [forallb dict_get]; [discriminate|].
  intros [Hf Hr]%andb_prop. destruct (String.eqb "timestamp" k) eqn:E.
  - intros [= ->]. unfold field_shaped in Hf. cbn [fst snd] in Hf. rewrite E in Hf.
    destruct v; cbn in *; try discriminate; try (right; split; [reflexivity|discriminate]).
    left. eauto.
  - now apply IH.
Qed.

(** Loading converts the saved form of a shaped record back to the record. *)
Lemma convert_prepared_record now v :
  record_shaped v = true -> convert_timestamp now (prepare_value v) = Ok v.
Proof.
  destruct v as [| | | | | | |r]; try discriminate.
  cbn [record_shaped prepare_value].
  intros [Hu Hf]%andb_prop.
  unfold convert_timestamp, py_contains, dict_mem.
  rewrite dict_get_prepare.
  destruct (dict_get "timestamp" r) as [v|] eqn:Hget; cbn [option_map rbind].
  - cbn [py_getitem]. rewrite dict_get_prepare, Hget. cbn [option_map rbind].
    destruct (field_shaped_timestamp r v Hf Hget) as [(t & -> & Hvalid)|[Hsc Hns]].
    + cbn [prepare_value py_setitem].
      rewrite (fromisoformat_isoformat t Hvalid).
      now rewrite (restore_timestamp r _ Hu Hf Hget).
    + rewrite (prepare_scalar v Hsc).
      assert (map prepare_field r = r) as ->.
      { rewrite <- (restore_timestamp r v Hu Hf Hget) at 2.
        symmetry. apply dict_set_same.
        rewrite dict_get_prepare, Hget. cbn [option_map].
        now rewrite (prepare_scalar v Hsc). }
      destruct v; try reflexivity. now destruct (Hns s).
  - now rewrite (prepare_fields_without_timestamp r Hf Hget).
Qed.

Lemma convert_prepared_store now (d : dict) :
  store_shaped d = true ->
  convert_records now (_prepare_records_for_save (PDict d)) = Ok d.
Proof.
  unfold store_shaped. simpl.
  induction d as [|[g v] d IH]; simpl; [reflexivity|].
  intros [Hv Hd]%andb_prop.
  rewrite (convert_prepared_record now v Hv). simpl.
  now rewrite (IH Hd).
Qed.

Lemma prepared_field_serializable kv :
  field_shaped kv = true -> json_serializable (prepare_value (snd kv)) = true.
Proof.
  destruct kv as [k v]. unfold field_shaped.
  destruct v; cbn [fst snd prepare_value json_serializable]; intros H;
    (discriminate H || reflexivity).
Qed.

Lemma prepared_store_serializable (d : dict) :
  store_shaped d = true ->
  json_serializable (PDict (_prepare_records_for_save (PDict d))) = true.
Proof.
  unfold store_shaped. simpl.
  induction d as [|[g v] d IH]; simpl; [reflexivity|].
  intros [Hv Hd]%andb_prop. rewrite (IH Hd), andb_true_r.
  destruct v as [| | | | | | |r]; try discriminate. simpl in *.
  apply andb_prop in Hv as [_ Hf].
  induction r as [|kv r IHr]; simpl in *; [reflexivity|].
  apply andb_prop in Hf as [Hkv Hr].
  now rewrite (prepared_field_serializable kv Hkv), (IHr Hr).
Qed.

Lemma as_group_ids_strings (l : list string) : as_group_ids (map PStr l) = Ok l.
Proof. induction l as [|s l IH]; simpl; [reflexivity|now rewrite IH]. Qed.

Lemma marker_list_serializable (l : list string) :
  forallb json_serializable (map PStr l) = true.
Proof. induction l; simpl; auto. Qed.

Lemma data_to_save_serializable st :
  snapshot_shaped st = true -> json_serializable (data_to_save st) = true.
Proof.
  unfold snapshot_shaped.
  intros [[[Hr Hm]%andb_prop Ht]%andb_prop Hc]%andb_prop.
  unfold data_to_save.
  change (json_serializable (PDict ?d)) with (forallb (fun kv => json_serializable (snd kv)) d).
  cbn [forallb snd].
  rewrite (prepared_store_serializable _ Hr), (prepared_store_serializable _ Hm),
    (prepared_store_serializable _ Ht).
  change (json_serializable (PList ?l)) with (forallb json_serializable l).
  rewrite marker_list_serializable.
  change (json_serializable (PDict ?d)) with (forallb (fun kv => json_serializable (snd kv)) d).
  now rewrite Hc.
Qed.

(** C8.  A snapshot of shaped stores that is saved and then loaded, into
    whatever core, gives back the five stores as they were: the same
    activity records, last-message records, marker set, counts and tier
    metadata, every timestamp equal to the original to the microsecond. *)
Theorem save_then_load_restores now st st0 f :
  snapshot_shaped st = true ->
  load_data_from_storage now (save_data_to_storage true st f) st0 = st.
Proof.
  intros Hshape.
  unfold save_data_to_storage. rewrite (data_to_save_serializable st Hshape).
  unfold snapshot_shaped in Hshape.
  apply andb_prop in Hshape as [[[Hr Hm]%andb_prop Ht]%andb_prop Hc].
  unfold load_data_from_storage, load_stores, data_to_save, convert_store.
  cbn [dict_get String.eqb Ascii.eqb Bool.eqb rbind].
  rewrite (convert_prepared_store now _ Hr).
  cbn [dict_get dict_set String.eqb Ascii.eqb Bool.eqb rbind].
  rewrite (convert_prepared_store now _ Hm).
  cbn [dict_get dict_set String.eqb Ascii.eqb Bool.eqb rbind].
  rewrite (convert_prepared_store now _ Ht).
  cbn [dict_get dict_set dict_get_default String.eqb Ascii.eqb Bool.eqb rbind
       as_dict as_group_set].
  rewrite as_group_ids_strings. cbn [rbind].
  rewrite list_to_set_elements_L.
  now destruct st.
Qed.

(** ** The dispatch marker *)

Lemma prefix_append_self s rest : String.prefix s (s +:+ rest) = true.
Proof.
  induction s as [|c s IH]; [now destruct rest|].
  rewrite append_String. cbn [String.prefix].
  destruct (ascii_dec c c); [exact IH|congruence].
Qed.

Lemma prefix_append_twice s a b : String.prefix s ((s +:+ a) +:+ b) = true.
Proof.
  induction s as [|c s IH]; [now destruct (("" +:+ a) +:+ b)|].
  rewrite !append_String. cbn [String.prefix].
  destruct (ascii_dec c c); [exact IH|congruence].
Qed.

Lemma str_contains_prefix pat s : String.prefix pat s = true -> str_contains pat s = true.
Proof. intros H. destruct s; cbn [str_contains]; now rewrite H. Qed.

(** Removing the context requirement leaves the marker in front. *)
Lemma remove_all_keeps_marker rest :
  remove_all context_requirement (system_marker +:+ rest)
  = system_marker +:+ remove_all context_requirement rest.
Proof.
  unfold system_marker. rewrite !append_String, append_empty_l.
  reflexivity.
Qed.

(** Every prompt the message manager builds starts with the marker. *)
Lemma adjust_prompt_marked prompt time_period extra_context :
  str_contains system_marker (adjust_prompt prompt time_period extra_context) = true.
Proof.
  apply str_contains_prefix. unfold adjust_prompt.
  destruct (truthy_text extra_context) as [extra|].
  - destruct (truthy_text time_period) as [tp|];
      rewrite remove_all_keeps_marker; apply prefix_append_twice.
  - destruct (truthy_text time_period) as [tp|]; apply prefix_append_self.
Qed.

(** The event behind a request that was sent carries the marker, so the
    handler ignores it when it comes back as a group message. *)
Lemma sent_event_is_marked h st r ev system_prompt :
  snd (generate_and_send_message h st r) = Ok (LlmRequest ev system_prompt) ->
  str_contains system_marker (fake_message_str ev) = true.
Proof.
  unfold generate_and_send_message, generate_and_send_body, create_fake_event.
  repeat case_match; simplify_eq; cbn [snd]; try discriminate.
  all: intros [= <- _]; apply adjust_prompt_marked.
Qed.

(** ** Records built by the in-memory operations are shaped *)

Lemma activity_record_shaped now cid umo :
  valid_datetime now = true -> scalar cid = true -> scalar umo = true ->
  record_shaped (activity_record now cid umo) = true.
Proof.
  intros Hnow Hcid Humo. unfold record_shaped, activity_record.
  cbn [unique_keys forallb field_shaped fst snd]. rewrite Hnow.
  destruct cid; try discriminate; destruct umo; try discriminate; reflexivity.
Qed.

Lemma type_info_shaped n tp t :
  valid_datetime t = true -> record_shaped (type_info n tp t) = true.
Proof.
  intros Ht. unfold record_shaped, type_info.
  cbn [unique_keys forallb field_shaped fst snd]. now rewrite Ht.
Qed.

Section shape_of_dicts.
Context {V : Type} (P : string * V -> bool).
Implicit Types (d : list (string * V)) (k : string) (v : V).

Lemma forallb_dict_set k v d :
  forallb P d = true -> P (k, v) = true -> forallb P (dict_set k v d) = true.
Proof.
  intros Hd Hv. induction d as [|[k' v'] d IH]; cbn [dict_set forallb] in *.
  - now rewrite Hv.
  - apply andb_prop in Hd as [Hh Ht].
    destruct (String.eqb k k'); cbn [forallb].
    + now rewrite Hv, Ht.
    + now rewrite Hh, IH.
Qed.

Lemma forallb_dict_pop k d :
  forallb P d = true -> forallb P (dict_pop k d) = true.
Proof.
  intros Hd. induction d as [|[k' v'] d IH]; cbn [dict_pop forallb] in *; [reflexivity|].
  apply andb_prop in Hd as [Hh Ht].
  destruct (String.eqb k k'); cbn [forallb]; [assumption|].
  now rewrite Hh, IH.
Qed.
End shape_of_dicts.

Lemma dict_mem_set {V} k' k (v : V) d :
  dict_mem k' (dict_set k v d) = String.eqb k' k || dict_mem k' d.
Proof.
  unfold dict_mem. induction d as [|[k0 v0] d IH]; cbn [dict_set dict_get].
  - now destruct (String.eqb k' k).
  - destruct (String.eqb k k0) eqn:E; cbn [dict_get].
    + apply String.eqb_eq in E. subst k0. now destruct (String.eqb k' k).
    + destruct (String.eqb k' k0); [now rewrite orb_true_r|exact IH].
Qed.

Lemma unique_keys_set k v (d : dict) :
  unique_keys d = true -> unique_keys (dict_set k v d) = true.
Proof.
  induction d as [|[k0 v0] d IH]; cbn [dict_set unique_keys]; [reflexivity|].
  intros [Hh Ht]%andb_prop. destruct (String.eqb k k0) eqn:E; cbn [unique_keys].
  - apply String.eqb_eq in E. subst k0. now rewrite Hh, Ht.
  - rewrite dict_mem_set, (IH Ht). rewrite String.eqb_sym, E. cbn [orb].
    now rewrite Hh.
Qed.

Lemma store_shaped_set k v d :
  store_shaped d = true -> record_shaped v = true -> store_shaped (dict_set k v d) = true.
Proof. intros Hd Hv. now apply forallb_dict_set. Qed.

Lemma snapshot_shaped_iff st :
  snapshot_shaped st = true
  <-> store_shaped (group_records st) = true
      /\ store_shaped (last_initiative_messages st) = true
      /\ store_shaped (last_initiative_types st) = true
      /\ forallb (fun kv => json_serializable (snd kv)) (consecutive_message_count st)
         = true.
Proof. unfold snapshot_shaped. rewrite !andb_true_iff. tauto. Qed.

Lemma commit_dispatch_shaped cfg clk st g cid umo n tp :
  valid_dispatch clk cid umo ->
  snapshot_shaped st = true ->
  snapshot_shaped (commit_dispatch cfg clk st g cid umo n tp) = true.
Proof.
  intros (Hinfo & Hsent & Hcid & Humo). rewrite !snapshot_shaped_iff.
  intros (Hr & Hm & Ht & Hc).
  pose proof (activity_record_shaped _ _ _ Hsent Hcid Humo) as Hrec.
  pose proof (type_info_shaped n tp _ Hinfo) as Hti.
  unfold commit_dispatch.
  destruct (n <? max_consecutive_messages cfg); cbn;
    repeat split; auto using store_shaped_set;
    now apply forallb_dict_set.
Qed.

Lemma reset_type_info_shaped g st st' :
  reset_type_info g st = Ok st' ->
  snapshot_shaped st = true -> snapshot_shaped st' = true.
Proof.
  unfold reset_type_info. rewrite !snapshot_shaped_iff.
  destruct (dict_get g (last_initiative_types st)) as [info|] eqn:Hinfo.
  - destruct info as [| | | | | | |r]; try discriminate. cbn [py_setitem rbind].
    intros [= <-] (Hr & Hm & Ht & Hc). cbn. repeat split; auto.
    apply store_shaped_set; [assumption|].
    assert (record_shaped (PDict r) = true) as Hshape.
    { apply dict_get_In in Hinfo. unfold store_shaped in Ht.
      rewrite forallb_forall in Ht. apply (Ht (g, PDict r)).
      now apply list_elem_of_In in Hinfo; apply list_elem_of_In. }
    cbn [record_shaped] in *. apply andb_prop in Hshape as [Hu Hf].
    rewrite (unique_keys_set _ _ _ Hu). now apply forallb_dict_set.
  - now intros [= <-].
Qed.

Lemma scan_records_shaped cfg schedule now snapshot : forall st submitted,
  snapshot_shaped st = true ->
  snapshot_shaped (scan_core (scan_records cfg schedule now snapshot st submitted)) = true.
Proof.
  induction snapshot as [|[g record] rest IH]; intros st submitted Hst;
    cbn [scan_records]; [assumption|].
  destruct (scan_group cfg _ now g record) as [[t|]|e]; cbn; auto.
  destruct (schedule t); cbn; auto.
  apply IH. apply snapshot_shaped_iff in Hst as (Hr & Hm & Ht & Hc).
  apply snapshot_shaped_iff. cbn. repeat split; auto.
  now apply forallb_dict_pop.
Qed.

(** Every state built from valid inputs is shaped, so it survives a save
    and a load unchanged. *)
Lemma built_shaped cfg st : built cfg st -> snapshot_shaped st = true.
Proof.
  induction 1 as [|ev st _ IH [Hnow Hcid]|w st _ IH|h clk st g cid umo _ IH Hvalid].
  - reflexivity.
  - unfold on_group_message.
    destruct (String.eqb (event_group_id ev) ""); [assumption|].
    destruct (str_contains system_marker (message_str ev)); [assumption|].
    unfold handle_group_message.
    destruct (curr_conversation_id ev) as [c|e]; cbn [rbind]; [|assumption].
    set (st1 := set_group_records _ st).
    assert (snapshot_shaped st1 = true) as Hst1.
    { apply snapshot_shaped_iff in IH as (Hr & Hm & Ht & Hc).
      apply snapshot_shaped_iff. subst st1. cbn. repeat split; auto.
      apply store_shaped_set; [assumption|].
      apply activity_record_shaped; auto. }
    destruct (bool_decide _); [|assumption].
    set (st2 := set_consecutive_message_count _ st1).
    assert (snapshot_shaped st2 = true) as Hst2.
    { apply snapshot_shaped_iff in Hst1 as (Hr & Hm & Ht & Hc).
      apply snapshot_shaped_iff. subst st2. cbn. repeat split; auto.
      now apply forallb_dict_set. }
    destruct (reset_type_info _ st2) as [st3|e] eqn:Hreset; cbn; [|assumption].
    apply (reset_type_info_shaped _ _ _ Hreset) in Hst2.
    apply snapshot_shaped_iff in Hst2 as (Hr & Hm & Ht & Hc).
    apply snapshot_shaped_iff. cbn. auto.
  - unfold scan_tick.
    destruct (time_limit_enabled cfg && negb (in_activity_window cfg (wake_hour_clock w)));
      cbn; [assumption|].
    now apply scan_records_shaped.
  - unfold _send_initiative_message.
    destruct (whitelist_rejects cfg g); [assumption|].
    destruct (read_next_count st g) as [n|e]; [|assumption].
    destruct (max_consecutive_messages cfg <? n); [assumption|].
    pose proof (generate_and_send_message_core h st
                  (dispatch_request cfg h clk g cid umo n)
                  (dispatch_request_type _ _ _ _ _ _ _)) as Hcore.
    destruct (generate_and_send_message h st _) as [st1 [x|e]]; cbn in *; subst st1.
    + now apply commit_dispatch_shaped.
    + destruct (is_Exception e); assumption.
Qed.

Lemma built_reachable cfg st : built cfg st -> reachable cfg st.
Proof.
  induction 1.
  - apply reachable_init.
  - eapply reachable_step; [eassumption|apply step_message].
  - eapply reachable_step; [eassumption|apply step_tick].
  - eapply reachable_step; [eassumption|apply step_dispatch].
Qed.

(** ** Instances *)

Lemma dispatch_success_commits_witness :
  dict_get group1 (consecutive_message_count core_sent_once) = Some (PInt 1)
  /\ dict_get group1 (group_records core_sent_once)
     = Some (activity_record (clock_sent clock1) conversation1 origin1).
Proof.
  edestruct (dispatch_success_commits default_config host_ok clock1 init_core
               group1 conversation1 origin1 0)
    as (_ & Hcount & _ & _ & _ & Hrearm & _);
    [reflexivity|reflexivity|simpl; lia|reflexivity|].
  split; [exact Hcount|apply Hrearm; simpl; lia].
Defined.

Lemma scanner_skips_terminal_group_witness :
  let r := _check_inactive_conversations_loop default_config
             [wake_afternoon; wake_afternoon] core_terminal_armed in
  loop_ticks r = 2%nat
  /\ (forall t, In t (loop_tasks r) -> task_group_id t <> group1)
  /\ dict_get group1 (group_records (loop_core r))
     = Some (activity_record morning conversation1 origin1).
Proof.
  split; [reflexivity|].
  destruct (scanner_skips_terminal_group default_config [wake_afternoon; wake_afternoon]
              core_terminal_armed group1 3)
    as (Htasks & Hrecord & _); [reflexivity|simpl; lia|].
  split; [exact Htasks|exact Hrecord].
Defined.

Lemma reachable_core_terminal : reachable default_config core_terminal.
Proof.
  apply (reachable_step _ core_sent_twice); [|apply step_dispatch].
  apply (reachable_step _ core_sent_once); [|apply step_dispatch].
  apply (reachable_step _ init_core); [|apply step_dispatch].
  apply reachable_init.
Defined.

Lemma genuine_message_zeroes_count_witness :
  dict_get group1 (consecutive_message_count core_terminal) = Some (PInt 3)
  /\ dict_get_default group1 (PInt 0)
       (consecutive_message_count (handler_core (on_group_message reply1 core_terminal)))
     = PInt 0.
Proof.
  split; [reflexivity|].
  apply (genuine_message_zeroes_count default_config core_terminal reply1);
    [apply reachable_core_terminal|discriminate|reflexivity|reflexivity].
Defined.

Lemma marked_message_is_ignored_witness :
  on_group_message echo1 core_sent_once = mkhandler core_sent_once false None.
Proof.
  apply (marked_message_is_ignored echo1 core_sent_once). reflexivity.
Defined.

Lemma rerun_after_success_witness :
  _send_initiative_message default_config host_ok clock1 core_terminal
    group1 conversation1 origin1
  = mkdispatch core_terminal [] false None.
Proof.
  edestruct (rerun_after_success default_config host_ok clock1 host_ok clock1
               core_sent_twice group1 conversation1 origin1 2)
    as (Hnoop & _); [reflexivity|reflexivity|simpl; lia|reflexivity|].
  apply Hnoop. reflexivity.
Defined.

Lemma positive_count_is_marked_witness :
  group1 ∈ groups_received_initiative core_terminal.
Proof.
  apply (positive_count_is_marked default_config core_terminal group1 3);
    [apply reachable_core_terminal|reflexivity|lia].
Defined.

Lemma eligible_group_is_submitted_witness :
  exists t,
    In t (scan_tasks (scan_tick default_config wake_afternoon core_armed))
    /\ task_group_id t = group1
    /\ min_delay t = 0
    /\ max_delay t = 60
    /\ forall d, drawn_from_range 60 t d = true -> 0 <= d <= 3600.
Proof.
  destruct (eligible_group_is_submitted default_config wake_afternoon core_armed group1
              (activity_record morning conversation1 origin1) morning
              conversation1 origin1 0)
    as (t & Hin & Hg & _ & _ & _ & Hmin & Hmax & Hdelay & _);
    [reflexivity|reflexivity|reflexivity|reflexivity|simpl; lia
    |reflexivity|reflexivity|reflexivity|reflexivity|reflexivity|cbn; lia|].
  exists t. do 4 (split; [assumption|]).
  intros d Hd. apply (Hdelay 1 60 d); [lia|exact Hd].
Defined.

Lemma save_then_load_restores_witness :
  snapshot_shaped core_sent_once = true
  /\ load_data_from_storage afternoon (save_data_to_storage true core_sent_once NoFile)
       init_core
     = core_sent_once.
Proof.
  split; [reflexivity|].
  apply (save_then_load_restores afternoon core_sent_once init_core NoFile).
  reflexivity.
Defined.

(** * Further properties of the code *)

(** ** The activity window *)

(** With the time limit on, wake-ups whose hour is outside
    [activity_start_hour, activity_end_hour) are skipped whole: however
    many come, the core is as it was, nothing is submitted, and the loop is
    still running. *)
Theorem loop_outside_window_is_idle cfg wakeups st :
  time_limit_enabled cfg = true ->
  Forall (fun w => wake_cancelled w = false
                   /\ in_activity_window cfg (wake_hour_clock w) = false) wakeups ->
  _check_inactive_conversations_loop cfg wakeups st
  = mkloop st [] (length wakeups) Sleeping.
Proof.
  intros Hlimit Hall. unfold _check_inactive_conversations_loop.
  assert (forall ticks,
             check_loop cfg wakeups st [] ticks
             = mkloop st [] (ticks + length wakeups) Sleeping) as Hgen.
  { induction Hall as [|w rest [Hc Hw] _ IH]; intros ticks; cbn [check_loop length].
    - now rewrite Nat.add_0_r.
    - rewrite Hc. unfold scan_tick. rewrite Hlimit, Hw. cbn.
      rewrite IH. f_equal. lia. }
  apply (Hgen 0%nat).
Qed.

(** ** The whitelist *)

Lemma scan_group_rejected cfg counts now g record :
  whitelist_rejects cfg g = true -> scan_group cfg counts now g record = Ok None.
Proof. intros H. unfold scan_group. now rewrite H. Qed.

Lemma scan_records_rejected cfg schedule now g snapshot : forall st submitted,
  whitelist_rejects cfg g = true ->
  (forall t, In t submitted -> task_group_id t <> g) ->
  let r := scan_records cfg schedule now snapshot st submitted in
  (forall t, In t (scan_tasks r) -> task_group_id t <> g)
  /\ dict_get g (group_records (scan_core r)) = dict_get g (group_records st).
Proof.
  induction snapshot as [|[g' record] rest IH]; intros st submitted Hwl Hsub;
    cbn [scan_records]; [auto|].
  destruct (scan_group cfg _ now g' record) as [[t|]|e] eqn:Hscan; cbn; auto.
  destruct (schedule t); cbn; auto.
  assert (g' <> g) as Hne.
  { intros ->. rewrite (scan_group_rejected _ _ _ _ _ Hwl) in Hscan. discriminate. }
  destruct (IH (set_group_records (dict_pop g') st) (submitted ++ [t])%list Hwl)
    as [H1 H2].
  - intros t' [Hin|[<-|[]]]%in_app_or; [now apply Hsub|].
    now rewrite (scan_group_task_id _ _ _ _ _ _ Hscan).
  - split; [exact H1|]. rewrite H2. cbn. now apply dict_get_pop_ne.
Qed.

Lemma check_loop_rejected cfg g wakeups : forall st submitted ticks,
  whitelist_rejects cfg g = true ->
  (forall t, In t submitted -> task_group_id t <> g) ->
  let r := check_loop cfg wakeups st submitted ticks in
  (forall t, In t (loop_tasks r) -> task_group_id t <> g)
  /\ dict_get g (group_records (loop_core r)) = dict_get g (group_records st).
Proof.
  induction wakeups as [|w rest IH]; intros st submitted ticks Hwl Hsub;
    cbn [check_loop]; [auto|].
  destruct (wake_cancelled w); [cbn; auto|].
  assert ((forall t, In t (scan_tasks (scan_tick cfg w st)) -> task_group_id t <> g)
          /\ dict_get g (group_records (scan_core (scan_tick cfg w st)))
             = dict_get g (group_records st)) as [Htasks Hrecord].
  { unfold scan_tick.
    destruct (time_limit_enabled cfg && negb (in_activity_window cfg (wake_hour_clock w)));
      cbn; [tauto|].
    now apply (scan_records_rejected cfg _ _ g _ st []). }
  assert (forall t, In t (submitted ++ scan_tasks (scan_tick cfg w st))%list ->
                    task_group_id t <> g) as Hsub'.
  { intros t [Hin|Hin]%in_app_or; auto. }
  destruct (scan_exn (scan_tick cfg w st)) as [e|]; [cbn; auto|].
  destruct (IH (scan_core (scan_tick cfg w st))
              (submitted ++ scan_tasks (scan_tick cfg w st))%list (S ticks) Hwl Hsub')
    as [H1 H2].
  split; [exact H1|now rewrite H2].
Qed.

(** With the whitelist on, a group that is not listed is left alone at
    both ends: over any run of ticks the scanner submits nothing for it
    and keeps its activity record, and a dispatch that was scheduled for
    it returns without a send, a change or a save. *)
Theorem unlisted_group_is_left_alone cfg wakeups h clk st g cid umo :
  whitelist_enabled cfg = true ->
  g ∉ whitelist_groups cfg ->
  (forall t, In t (loop_tasks (_check_inactive_conversations_loop cfg wakeups st)) ->
             task_group_id t <> g)
  /\ dict_get g (group_records
                   (loop_core (_check_inactive_conversations_loop cfg wakeups st)))
     = dict_get g (group_records st)
  /\ _send_initiative_message cfg h clk st g cid umo = mkdispatch st [] false None.
Proof.
  intros Hon Hout.
  assert (whitelist_rejects cfg g = true) as Hwl.
  { unfold whitelist_rejects. rewrite Hon. cbn.
    now rewrite bool_decide_eq_false_2. }
  destruct (check_loop_rejected cfg g wakeups st [] 0%nat Hwl) as [H1 H2];
    [intros t []|].
  split; [exact H1|]. split; [exact H2|].
  unfold _send_initiative_message. now rewrite Hwl.
Qed.

(** ** The types of the stored values *)

Lemma In_dict_set {V} g (v : V) k x d :
  In (g, v) (dict_set k x d) -> (g = k /\ v = x) \/ In (g, v) d.
Proof.
  induction d as [|[k' v'] d IH]; cbn [dict_set].
  - intros [[= -> ->]|[]]. now left.
  - destruct (String.eqb k k').
    + intros [[= -> ->]|Hin]; [now left|right; now right].
    + intros [Heq|Hin]; [right; now left|].
      destruct (IH Hin) as [?|?]; [now left|right; now right].
Qed.

Lemma In_dict_pop {V} g (v : V) k d : In (g, v) (dict_pop k d) -> In (g, v) d.
Proof.
  induction d as [|[k' v'] d IH]; cbn [dict_pop]; [tauto|].
  destruct (String.eqb k k'); [now right|].
  intros [Heq|Hin]; [now left|right; now apply IH].
Qed.

Section typed_stores.
Variables (cfg : config) (P : Z -> Prop).
Hypothesis P_zero : P 0.
Hypothesis P_next : forall k, P k -> k + 1 <= max_consecutive_messages cfg -> P (k + 1).

Lemma read_current_count_typed st g :
  stores_typed P st -> exists k, read_current_count st g = Ok (PInt k) /\ P k.
Proof.
  intros (_ & Hc & Hi). unfold read_current_count.
  destruct (dict_get g (last_initiative_types st)) as [info|] eqn:Hinfo.
  - apply dict_get_In in Hinfo. destruct (Hi _ _ Hinfo) as (d & n & -> & Hn & HP).
    exists n. cbn. unfold dict_get_default. now rewrite Hn.
  - unfold dict_get_default.
    destruct (dict_get g (consecutive_message_count st)) as [v|] eqn:Hv.
    + apply dict_get_In in Hv. destruct (Hc _ _ Hv) as (n & -> & HP). eauto.
    + eauto.
Qed.

Lemma stores_typed_commit clk st g cid umo n tp :
  stores_typed P st -> P n -> stores_typed P (commit_dispatch cfg clk st g cid umo n tp).
Proof.
  intros (Hr & Hc & Hi) HP. unfold commit_dispatch.
  assert (forall g' v,
             In (g', v) (dict_set g (activity_record (clock_sent clk) cid umo)
                           (group_records st)) -> record_typed v) as Hr'.
  { intros g' v [[_ ->]|Hin]%In_dict_set; [unfold record_typed; eauto|eauto]. }
  assert (forall g' v,
             In (g', v) (dict_set g (PInt n) (consecutive_message_count st)) ->
             exists m, v = PInt m /\ P m) as Hc'.
  { intros g' v [[_ ->]|Hin]%In_dict_set; eauto. }
  assert (forall g' v,
             In (g', v) (dict_set g (type_info n tp (clock_type_info clk))
                           (last_initiative_types st)) -> info_typed P v) as Hi'.
  { intros g' v [[_ ->]|Hin]%In_dict_set; [|eauto].
    unfold info_typed, type_info. eexists _, n. split; [reflexivity|]. now split. }
  destruct (n <? max_consecutive_messages cfg); repeat split; cbn; eauto.
Qed.

Lemma stores_typed_dispatch h clk st g cid umo :
  stores_typed P st ->
  stores_typed P (dispatch_core (_send_initiative_message cfg h clk st g cid umo)).
Proof.
  intros Hst. unfold _send_initiative_message.
  destruct (whitelist_rejects cfg g); [assumption|].
  destruct (read_current_count_typed st g Hst) as (k & Hk & HP).
  unfold read_next_count. rewrite Hk. cbn [rbind py_int].
  destruct (Z.ltb_spec (max_consecutive_messages cfg) (k + 1)); [assumption|].
  pose proof (generate_and_send_message_core h st
                (dispatch_request cfg h clk g cid umo (k + 1))
                (dispatch_request_type _ _ _ _ _ _ _)) as Hcore.
  destruct (generate_and_send_message h st _) as [st1 [x|e]]; cbn in *; subst st1.
  - apply stores_typed_commit; [assumption|]. apply P_next; [assumption|lia].
  - destruct (is_Exception e); assumption.
Qed.

Lemma reset_type_info_typed g st :
  stores_typed P st ->
  exists st', reset_type_info g st = Ok st' /\ stores_typed P st'.
Proof.
  intros (Hr & Hc & Hi). unfold reset_type_info.
  destruct (dict_get g (last_initiative_types st)) as [info|] eqn:Hinfo.
  - apply dict_get_In in Hinfo. destruct (Hi _ _ Hinfo) as (d & n & -> & Hn & HP).
    cbn [py_setitem rbind]. eexists. split; [reflexivity|].
    repeat split; cbn; eauto.
    intros g' v [[_ ->]|Hin]%In_dict_set; [|eauto].
    exists (dict_set "count" (PInt 0) d), 0.
    split; [reflexivity|]. split; [apply dict_get_set_eq|assumption].
  - eexists. split; [reflexivity|]. now repeat split.
Qed.

Lemma stores_typed_message ev st :
  stores_typed P st -> stores_typed P (handler_core (on_group_message ev st)).
Proof.
  intros Hst. unfold on_group_message.
  destruct (String.eqb (event_group_id ev) ""); [assumption|].
  destruct (str_contains system_marker (message_str ev)); [assumption|].
  unfold handle_group_message.
  destruct (curr_conversation_id ev) as [c|e]; cbn [rbind]; [|assumption].
  set (st1 := set_group_records _ st).
  assert (stores_typed P st1) as Hst1.
  { destruct Hst as (Hr & Hc & Hi). subst st1. repeat split; cbn; eauto.
    intros g' v [[_ ->]|Hin]%In_dict_set; [unfold record_typed; eauto|eauto]. }
  destruct (bool_decide _); [|assumption].
  set (st2 := set_consecutive_message_count _ st1).
  assert (stores_typed P st2) as Hst2.
  { destruct Hst1 as (Hr & Hc & Hi). subst st2. repeat split; cbn; eauto.
    intros g' v [[_ ->]|Hin]%In_dict_set; eauto. }
  destruct (reset_type_info_typed (event_group_id ev) st2 Hst2) as (st3 & -> & Hst3).
  cbn. destruct Hst3 as (Hr & Hc & Hi). repeat split; cbn; eauto.
Qed.

Lemma stores_typed_scan schedule now snapshot : forall st submitted,
  stores_typed P st ->
  stores_typed P (scan_core (scan_records cfg schedule now snapshot st submitted)).
Proof.
  induction snapshot as [|[g record] rest IH]; intros st submitted Hst;
    cbn [scan_records]; [assumption|].
  destruct (scan_group cfg _ now g record) as [[t|]|e]; cbn; auto.
  destruct (schedule t); cbn; auto.
  apply IH. destruct Hst as (Hr & Hc & Hi). repeat split; cbn; eauto.
  intros g' v Hin%In_dict_pop. eauto.
Qed.

Lemma stores_typed_tick w st :
  stores_typed P st -> stores_typed P (scan_core (scan_tick cfg w st)).
Proof.
  intros Hst. unfold scan_tick.
  destruct (time_limit_enabled cfg && negb (in_activity_window cfg (wake_hour_clock w)));
    cbn; [assumption|].
  now apply stores_typed_scan.
Qed.

Lemma reachable_stores_typed st : reachable cfg st -> stores_typed P st.
Proof.
  induction 1 as [|st st' _ IH Hstep].
  - repeat split; intros g v [].
  - destruct Hstep.
    + now apply stores_typed_message.
    + now apply stores_typed_tick.
    + now apply stores_typed_dispatch.
Qed.
End typed_stores.

(** With a maximum that is not negative, every count the reachable states
    hold, in consecutive_message_count and with the tier metadata, is an
    int between 0 and max_consecutive_messages. *)
Theorem count_never_exceeds_max cfg st g :
  reachable cfg st ->
  0 <= max_consecutive_messages cfg ->
  (forall v, dict_get g (consecutive_message_count st) = Some v ->
             exists n, v = PInt n /\ 0 <= n <= max_consecutive_messages cfg)
  /\ (forall info, dict_get g (last_initiative_types st) = Some info ->
                   exists n, py_get info "count" (PInt 0) = Ok (PInt n)
                             /\ 0 <= n <= max_consecutive_messages cfg).
Proof.
  intros Hreach Hmax.
  destruct (reachable_stores_typed cfg
              (fun n => 0 <= n <= max_consecutive_messages cfg)
              ltac:(cbn; lia) ltac:(cbn; intros; lia) st Hreach) as (_ & Hc & Hi).
  split.
  - intros v Hv%dict_get_In. eauto.
  - intros info Hinfo%dict_get_In.
    destruct (Hi _ _ Hinfo) as (d & n & -> & Hn & HP).
    exists n. cbn. unfold dict_get_default. now rewrite Hn.
Qed.

(** ** Freedom from type and key errors *)

Lemma scan_group_typed cfg counts now g record :
  record_typed record ->
  (forall g' v, In (g', v) counts -> exists n, v = PInt n /\ True) ->
  exists o, scan_group cfg counts now g record = Ok o.
Proof.
  intros (t & c & u & ->) Hc. unfold scan_group.
  destruct (whitelist_rejects cfg g); [eauto|].
  assert (exists n, dict_get_default g (PInt 0) counts = PInt n) as [n ->].
  { unfold dict_get_default. destruct (dict_get g counts) as [v|] eqn:Hv; [|eauto].
    apply dict_get_In in Hv. destruct (Hc _ _ Hv) as (n & -> & _). eauto. }
  cbn. destruct (max_consecutive_messages cfg <=? n); [eauto|].
  destruct (elapsed_at_least now t (inactive_time_seconds cfg)); eauto.
Qed.

Lemma scan_records_typed cfg schedule now snapshot : forall st submitted,
  (forall t, schedule t = Ok tt) ->
  (forall g v, In (g, v) snapshot -> record_typed v) ->
  (forall g v, In (g, v) (consecutive_message_count st) -> exists n, v = PInt n /\ True) ->
  scan_exn (scan_records cfg schedule now snapshot st submitted) = None.
Proof.
  induction snapshot as [|[g record] rest IH]; intros st submitted Hs Hr Hc;
    cbn [scan_records]; [reflexivity|].
  destruct (scan_group_typed cfg (consecutive_message_count st) now g record)
    as [o ->]; [eapply Hr; now left|assumption|].
  destruct o as [t|].
  - rewrite Hs. apply IH; [assumption| |assumption].
    intros g' v Hin. eapply Hr. right. eassumption.
  - apply IH; [assumption| |assumption].
    intros g' v Hin. eapply Hr. right. eassumption.
Qed.

(** From a reachable state, as long as the loop is not cancelled and the
    scheduler accepts the tasks, no tick raises: every wake-up gets its
    iteration and the loop is still running after the last. *)
Theorem scanner_keeps_running cfg wakeups st :
  reachable cfg st ->
  Forall wake_accepts wakeups ->
  loop_ticks (_check_inactive_conversations_loop cfg wakeups st) = length wakeups
  /\ loop_status_of (_check_inactive_conversations_loop cfg wakeups st) = Sleeping.
Proof.
  intros Hreach Hall. unfold _check_inactive_conversations_loop.
  assert (forall submitted ticks,
             loop_ticks (check_loop cfg wakeups st submitted ticks)
             = (ticks + length wakeups)%nat
             /\ loop_status_of (check_loop cfg wakeups st submitted ticks) = Sleeping)
    as Hgen.
  { revert st Hreach.
    induction Hall as [|w rest [Hc Hs] _ IH]; intros st Hreach submitted ticks;
      cbn [check_loop length].
    - cbn. split; [lia|reflexivity].
    - rewrite Hc.
      assert (scan_exn (scan_tick cfg w st) = None) as ->.
      { destruct (reachable_stores_typed cfg (fun _ => True) I (fun _ _ _ => I)
                    st Hreach) as (Hr & Hcount & _).
        unfold scan_tick.
        destruct (time_limit_enabled cfg
                  && negb (in_activity_window cfg (wake_hour_clock w)));
          [reflexivity|].
        now apply scan_records_typed. }
      destruct (IH (scan_core (scan_tick cfg w st))
                  (reachable_step _ _ _ Hreach (step_tick cfg w st))
                  (submitted ++ scan_tasks (scan_tick cfg w st))%list (S ticks))
        as [Ht Hstat].
      split; [rewrite Ht; lia|exact Hstat]. }
  apply (Hgen [] 0%nat).
Qed.

(** In a reachable state the dispatcher and the handler meet no value of
    the wrong type: the only exception that can leave a dispatch is one
    that is not an Exception (a cancellation during the send), and the
    only one that can leave the handler is the one raised by the lookup of
    the current conversation. *)
Theorem operations_raise_no_type_error cfg h clk st g cid umo ev :
  reachable cfg st ->
  match dispatch_exn (_send_initiative_message cfg h clk st g cid umo) with
  | Some e => is_Exception e = false
  | None => True
  end
  /\ match handler_exn (on_group_message ev st) with
     | Some e => curr_conversation_id ev = Raise e
     | None => True
     end.
Proof.
  intros Hreach.
  pose proof (reachable_stores_typed cfg (fun _ => True) I (fun _ _ _ => I) st Hreach)
    as Hst.
  split.
  - unfold _send_initiative_message.
    destruct (whitelist_rejects cfg g); [exact I|].
    destruct (read_current_count_typed (fun _ => True) I st g Hst) as (k & Hk & _).
    unfold read_next_count. rewrite Hk. cbn [rbind py_int].
    destruct (max_consecutive_messages cfg <? k + 1); [exact I|].
    pose proof (generate_and_send_message_raises h st
                  (dispatch_request cfg h clk g cid umo (k + 1))) as Hraise.
    destruct (generate_and_send_message h st _) as [st1 [x|e]]; cbn in *; [exact I|].
    rewrite (Hraise e eq_refl). cbn. now apply Hraise.
  - unfold on_group_message.
    destruct (String.eqb (event_group_id ev) ""); [exact I|].
    destruct (str_contains system_marker (message_str ev)); [exact I|].
    unfold handle_group_message.
    destruct (curr_conversation_id ev) as [c|e]; cbn [rbind]; [|reflexivity].
    destruct (bool_decide _); [|exact I].
    set (st2 := set_consecutive_message_count _ _).
    assert (stores_typed (fun _ => True) st2) as Hst2.
    { destruct Hst as (Hr & Hc & Hi). subst st2. repeat split; cbn; eauto.
      - intros g' v [[_ ->]|Hin]%In_dict_set; [unfold record_typed; eauto|eauto].
      - intros g' v [[_ ->]|Hin]%In_dict_set; eauto. }
    destruct (reset_type_info_typed (fun _ => True) I (event_group_id ev) st2 Hst2)
      as (st3 & -> & _).
    exact I.
Qed.

(** ** One submission per silence *)

Lemma keys_dict_pop {V} (k x : string) (d : list (string * V)) :
  x ∈ keys (dict_pop k d) -> x ∈ keys d.
Proof.
  induction d as [|[k' v'] d IH]; cbn [dict_pop keys map fst]; [auto|].
  destruct (String.eqb k k'); cbn [map fst].
  - intros H. now apply list_elem_of_further.
  - intros [->|H]%elem_of_cons; [apply list_elem_of_here|].
    apply list_elem_of_further. now apply IH.
Qed.

Lemma NoDup_keys_pop {V} (k : string) (d : list (string * V)) :
  NoDup (keys d) -> NoDup (keys (dict_pop k d)) /\ k ∉ keys (dict_pop k d).
Proof.
  induction d as [|[k' v'] d IH]; cbn [dict_pop keys map fst].
  - intros _. split; [constructor|]. apply not_elem_of_nil.
  - intros [Hk Hd]%NoDup_cons. destruct (String.eqb k k') eqn:E.
    + apply String.eqb_eq in E. subst k'. now split.
    + destruct (IH Hd) as [Hnd Hnot]. apply String.eqb_neq in E.
      cbn [map fst]. split.
      * apply NoDup_cons. split; [|assumption].
        intros Hin. apply Hk. eapply keys_dict_pop. exact Hin.
      * intros [->|Hin]%elem_of_cons; [now apply E|now apply Hnot].
Qed.

Lemma not_in_keys_get {V} (k : string) (d : list (string * V)) :
  k ∉ keys d -> dict_get k d = None.
Proof.
  induction d as [|[k' v'] d IH]; cbn [dict_get keys map fst]; [reflexivity|].
  intros Hnot. destruct (String.eqb k k') eqn:E.
  - apply String.eqb_eq in E. subst k'. destruct Hnot. apply list_elem_of_here.
  - apply IH. intros Hin. apply Hnot. now apply list_elem_of_further.
Qed.

Lemma scan_records_once cfg schedule now snapshot : forall st submitted,
  NoDup (keys snapshot) ->
  NoDup (keys (group_records st)) ->
  NoDup (task_groups submitted) ->
  (forall g, g ∈ task_groups submitted ->
             (g ∉ keys snapshot) /\ (g ∉ keys (group_records st))) ->
  let r := scan_records cfg schedule now snapshot st submitted in
  NoDup (task_groups (scan_tasks r))
  /\ NoDup (keys (group_records (scan_core r)))
  /\ (forall g, g ∈ keys (group_records (scan_core r)) -> g ∈ keys (group_records st))
  /\ (forall g, g ∈ task_groups (scan_tasks r) ->
                (g ∉ keys (group_records (scan_core r)))
                /\ (g ∈ task_groups submitted \/ g ∈ keys snapshot)).
Proof.
  induction snapshot as [|[g' record] rest IH]; intros st submitted Hsnap Hrec Hsub Hdis;
    cbn [scan_records].
  - cbn. repeat split; auto. now apply Hdis.
  - apply NoDup_cons in Hsnap as [Hg' Hrest]. cbn [keys map fst] in Hdis.
    assert (forall st0 sub0,
               NoDup (keys (group_records st0)) ->
               NoDup (task_groups sub0) ->
               (forall g, g ∈ task_groups sub0 ->
                          (g ∉ keys rest) /\ (g ∉ keys (group_records st0))) ->
               (forall g, g ∈ keys (group_records st0) -> g ∈ keys (group_records st)) ->
               (forall g, g ∈ task_groups sub0 ->
                          g ∈ task_groups submitted \/ g ∈ g' :: keys rest) ->
               let r := scan_records cfg schedule now rest st0 sub0 in
               NoDup (task_groups (scan_tasks r))
               /\ NoDup (keys (group_records (scan_core r)))
               /\ (forall g, g ∈ keys (group_records (scan_core r)) ->
                             g ∈ keys (group_records st))
               /\ (forall g, g ∈ task_groups (scan_tasks r) ->
                             (g ∉ keys (group_records (scan_core r)))
                             /\ (g ∈ task_groups submitted \/ g ∈ g' :: keys rest)))
      as Hnext.
    { intros st0 sub0 H1 H2 H3 H4 H5.
      destruct (IH st0 sub0 Hrest H1 H2 H3) as (K1 & K2 & K3 & K4).
      repeat split; auto.
      - now apply K4.
      - destruct (K4 g H) as [_ [Hin|Hin]]; [now apply H5|].
        right. now apply list_elem_of_further. }
    assert (forall g, g ∈ task_groups submitted ->
                      (g ∉ keys rest) /\ (g ∉ keys (group_records st))) as Hdis'.
    { intros g Hg. destruct (Hdis g Hg) as [Hn1 Hn2]. split; [|assumption].
      intros Hin. apply Hn1. now apply list_elem_of_further. }
    destruct (scan_group cfg _ now g' record) as [[t|]|e] eqn:Hscan.
    + destruct (schedule t).
      * pose proof (scan_group_task_id _ _ _ _ _ _ Hscan) as Hid.
        destruct (NoDup_keys_pop g' (group_records st) Hrec) as [Hpop Hgone].
        apply Hnext; cbn.
        -- assumption.
        -- unfold task_groups. rewrite map_app. cbn. rewrite Hid.
           apply NoDup_app. split; [assumption|]. split; [|apply NoDup_singleton].
           intros g Hg ->%list_elem_of_singleton.
           destruct (Hdis g' Hg) as [Hn _]. apply Hn, list_elem_of_here.
        -- intros g. unfold task_groups. rewrite map_app. cbn. rewrite Hid.
           intros [Hg| ->%list_elem_of_singleton]%elem_of_app.
           ++ destruct (Hdis' g Hg) as [Hn1 Hn2]. split; [assumption|].
              intros Hin. apply Hn2. eapply keys_dict_pop. exact Hin.
           ++ split; assumption.
        -- intros g Hin. eapply keys_dict_pop. exact Hin.
        -- intros g. unfold task_groups. rewrite map_app. cbn. rewrite Hid.
           intros [Hg| ->%list_elem_of_singleton]%elem_of_app; [now left|].
           right. apply list_elem_of_here.
      * cbn. repeat split; auto.
        -- now apply Hdis.
    + apply Hnext; auto.
    + cbn. repeat split; auto. now apply Hdis.
Qed.

Lemma scan_tick_once cfg w st :
  NoDup (keys (group_records st)) ->
  let r := scan_tick cfg w st in
  NoDup (task_groups (scan_tasks r))
  /\ NoDup (keys (group_records (scan_core r)))
  /\ (forall g, g ∈ keys (group_records (scan_core r)) -> g ∈ keys (group_records st))
  /\ (forall g, g ∈ task_groups (scan_tasks r) ->
                (g ∉ keys (group_records (scan_core r)))
                /\ g ∈ keys (group_records st)).
Proof.
  intros Hrec. unfold scan_tick.
  destruct (time_limit_enabled cfg && negb (in_activity_window cfg (wake_hour_clock w))).
  - cbn. repeat split; auto; try constructor; now apply not_elem_of_nil in H.
  - destruct (scan_records_once cfg (wake_schedule w) (wake_now w) (group_records st)
                st [] Hrec Hrec) as (K1 & K2 & K3 & K4).
    + constructor.
    + intros g Hg. now apply not_elem_of_nil in Hg.
    + repeat split; auto.
      * now apply K4.
      * destruct (K4 g H) as [_ [Hin|Hin]]; [now apply not_elem_of_nil in Hin|assumption].
Qed.

Lemma check_loop_once cfg wakeups : forall st submitted ticks,
  NoDup (keys (group_records st)) ->
  NoDup (task_groups submitted) ->
  (forall g, g ∈ task_groups submitted -> g ∉ keys (group_records st)) ->
  let r := check_loop cfg wakeups st submitted ticks in
  NoDup (task_groups (loop_tasks r))
  /\ (forall g, g ∈ task_groups (loop_tasks r) -> g ∉ keys (group_records (loop_core r))).
Proof.
  induction wakeups as [|w rest IH]; intros st submitted ticks Hrec Hsub Hdis;
    cbn [check_loop]; [cbn; auto|].
  destruct (wake_cancelled w); [cbn; auto|].
  destruct (scan_tick_once cfg w st Hrec) as (K1 & K2 & K3 & K4).
  assert (NoDup (task_groups (submitted ++ scan_tasks (scan_tick cfg w st))%list)
          /\ (forall g,
                 g ∈ task_groups (submitted ++ scan_tasks (scan_tick cfg w st))%list ->
                 g ∉ keys (group_records (scan_core (scan_tick cfg w st)))))
    as [Hsub' Hdis'].
  { unfold task_groups. rewrite map_app. split.
    - apply NoDup_app. split; [assumption|]. split; [|assumption].
      intros g Hg Hin. destruct (K4 g Hin) as [_ Hold]. now apply (Hdis g Hg).
    - intros g [Hg|Hg]%elem_of_app.
      + intros Hin. apply (Hdis g Hg). now apply K3.
      + now apply K4. }
  destruct (scan_exn (scan_tick cfg w st)); [cbn; auto|].
  now apply IH.
Qed.

(** The keys of group_records being distinct, as those of a dict are: over
    any run of ticks no group is handed to the scheduler twice, and a group
    that was handed over has no activity record left when the run ends. *)
Theorem scanner_submits_each_group_once cfg wakeups st :
  NoDup (keys (group_records st)) ->
  let r := _check_inactive_conversations_loop cfg wakeups st in
  NoDup (task_groups (loop_tasks r))
  /\ forall t, In t (loop_tasks r) ->
               dict_get (task_group_id t) (group_records (loop_core r)) = None.
Proof.
  intros Hrec r.
  destruct (check_loop_once cfg wakeups st [] 0%nat Hrec) as [H1 H2].
  - constructor.
  - intros g Hg. now apply not_elem_of_nil in Hg.
  - split; [exact H1|].
    intros t Hin. apply not_in_keys_get. apply H2.
    apply list_elem_of_fmap. exists t. split; [reflexivity|].
    now apply list_elem_of_In.
Qed.

(** ** The escalation sequence *)

Lemma host_delivers_sends h st r s :
  host_delivers h ->
  req_prompts r <> [] ->
  req_unified_msg_origin r = PStr s ->
  exists ev system_prompt,
    snd (generate_and_send_message h st r) = Ok (LlmRequest ev system_prompt).
Proof.
  intros (Hconv & Htool & Hplat & Himp & Hcommit & Hllm) Hprompts Humo.
  unfold generate_and_send_message, generate_and_send_body, create_fake_event.
  destruct (Hconv (req_unified_msg_origin r) (req_conversation_id r)) as [conv ->].
  unfold random_choice. destruct (req_prompts r) as [|p ps]; [contradiction|].
  rewrite Htool, Hplat, Himp, Humo, Hcommit, Hllm.
  destruct (String.eqb (req_message_type r) "主动消息"); cbn; eauto.
Qed.

Lemma dispatch_times_count cfg h clk st g cid s m :
  host_delivers h ->
  whitelist_rejects cfg g = false ->
  0 <= max_consecutive_messages cfg ->
  read_current_count st g = Ok (PInt 0) ->
  dict_get_default g (PInt 0) (consecutive_message_count st) = PInt 0 ->
  let k := Z.min (Z.of_nat m) (max_consecutive_messages cfg) in
  let out := dispatch_times m cfg h clk st g cid (PStr s) in
  read_current_count (fst out) g = Ok (PInt k)
  /\ dict_get_default g (PInt 0) (consecutive_message_count (fst out)) = PInt k
  /\ Z.of_nat (length (snd out)) = k.
Proof.
  intros Hhost Hwl Hmax Hcur Hcount.
  induction m as [|m IH]; cbn [dispatch_times].
  - cbn. rewrite Z.min_l by lia. auto.
  - destruct (dispatch_times m cfg h clk st g cid (PStr s)) as [st1 sends].
    cbn [fst snd] in *. destruct IH as (Hk & Hc & Hlen).
    set (k := Z.min (Z.of_nat m) (max_consecutive_messages cfg)) in *.
    assert (read_next_count st1 g = Ok (k + 1)) as Hnext.
    { unfold read_next_count. now rewrite Hk. }
    destruct (Z.lt_ge_cases (Z.of_nat m) (max_consecutive_messages cfg)) as [Hlt|Hge].
    + assert (k = Z.of_nat m) as Hkm by (subst k; lia).
      destruct (host_delivers_sends h st1
                  (dispatch_request cfg h clk g cid (PStr s) (k + 1)) s Hhost)
        as (ev & sp & Hsend); [discriminate|reflexivity|].
      rewrite (dispatch_returned _ _ _ _ _ _ _ _ _ Hwl Hnext ltac:(lia) Hsend).
      cbn [dispatch_core dispatch_sends].
      rewrite Z.min_l by lia.
      replace (Z.of_nat (S m)) with (k + 1) by lia.
      split; [|split].
      * unfold read_current_count. now rewrite commit_type_info.
      * unfold dict_get_default. now rewrite commit_count.
      * rewrite length_app. cbn. lia.
    + assert (k = max_consecutive_messages cfg) as Hkm by (subst k; lia).
      rewrite (dispatch_guarded cfg h clk st1 g cid (PStr s) (k + 1) Hnext) by lia.
      cbn [dispatch_core dispatch_sends].
      rewrite Z.min_r by lia. rewrite app_nil_r.
      repeat split; congruence || lia.
Qed.

(** A group that has no count yet, a host on which every send works, a
    maximum that is not negative: however often the dispatcher is called
    for the group in a row, it sends min(calls, max_consecutive_messages)
    messages and leaves the count at that number. *)
Theorem escalation_stops_at_max cfg h clk st g cid s m :
  host_delivers h ->
  whitelist_rejects cfg g = false ->
  0 <= max_consecutive_messages cfg ->
  dict_get g (last_initiative_types st) = None ->
  dict_get g (consecutive_message_count st) = None ->
  let out := dispatch_times m cfg h clk st g cid (PStr s) in
  dict_get_default g (PInt 0) (consecutive_message_count (fst out))
  = PInt (Z.min (Z.of_nat m) (max_consecutive_messages cfg))
  /\ Z.of_nat (length (snd out)) = Z.min (Z.of_nat m) (max_consecutive_messages cfg).
Proof.
  intros Hhost Hwl Hmax Hinfo Hcount.
  apply (dispatch_times_count cfg h clk st g cid s m Hhost Hwl Hmax).
  - unfold read_current_count, dict_get_default. now rewrite Hinfo, Hcount.
  - unfold dict_get_default. now rewrite Hcount.
Qed.

(** ** The bot's own outreach *)

(** The event behind a request that was sent, when the platform delivers
    it back as a group message, is dropped by the handler: whatever the
    state, nothing changes and nothing is saved. *)
Theorem own_outreach_is_ignored h st r fe system_prompt ev st' :
  snd (generate_and_send_message h st r) = Ok (LlmRequest fe system_prompt) ->
  message_str ev = fake_message_str fe ->
  on_group_message ev st' = mkhandler st' false None.
Proof.
  intros Hsent Htext. unfold on_group_message.
  destruct (String.eqb (event_group_id ev) ""); [reflexivity|].
  now rewrite Htext, (sent_event_is_marked h st r fe system_prompt Hsent).
Qed.

(** ** The scanner and the helpers of [GroupManager] *)

(** For a three-field activity record and an int count, the scanner hands
    the group to the scheduler exactly when [is_group_whitelisted] and
    [should_send_initiative_message] both say yes. *)
Theorem scanner_agrees_with_group_manager cfg counts now g t c u n :
  py_int (dict_get_default g (PInt 0) counts) = Ok n ->
  (exists task, scan_group cfg counts now g (activity_record t c u) = Ok (Some task))
  <-> is_group_whitelisted g (whitelist_groups cfg) (whitelist_enabled cfg) = true
      /\ should_send_initiative_message now g t (inactive_time_seconds cfg) n
           (max_consecutive_messages cfg) = true.
Proof.
  intros Hn. unfold scan_group, whitelist_rejects, is_group_whitelisted,
    should_send_initiative_message.
  rewrite Hn. cbn [rbind].
  destruct (whitelist_enabled cfg); cbn [negb andb];
    destruct (bool_decide (g ∈ whitelist_groups cfg)); cbn [negb];
    destruct (max_consecutive_messages cfg <=? n); cbn;
    destruct (elapsed_at_least now t (inactive_time_seconds cfg)); cbn;
    split; try (intros [task Ht]; discriminate Ht); try (intros [? ?]; discriminate);
    eauto.
Qed.

(** ** Origins *)

Lemma split_on_without c s : has_char c s = false -> split_on c s = [s].
Proof.
  induction s as [|a s IH]; cbn [has_char split_on]; [reflexivity|].
  intros [Ha Hs]%orb_false_elim. rewrite (IH Hs). now rewrite Ha.
Qed.

Lemma split_on_first c a b :
  has_char c a = false -> split_on c (a +:+ String c b) = a :: split_on c b.
Proof.
  induction a as [|x a IH]; cbn [has_char].
  - intros _. rewrite append_empty_l. cbn [split_on].
    assert (exists w ws, split_on c b = w :: ws) as (w & ws & ->).
    { destruct b as [|y b]; cbn [split_on]; [eauto|].
      destruct (split_on c b) as [|w ws]; [eauto|].
      destruct (Ascii.eqb y c); eauto. }
    now rewrite Ascii.eqb_refl.
  - intros [Hx Ha]%orb_false_elim. rewrite append_String. cbn [split_on].
    rewrite (IH Ha). now rewrite Hx.
Qed.

(** The origin [GroupManager] builds for a group is read back by the
    message manager as that group's session, as long as neither the
    platform name nor the group id contains a colon; an origin without any
    colon is its own session. *)
Theorem group_origin_round_trip group_id platform :
  has_char ":" platform = false ->
  has_char ":" group_id = false ->
  parse_unified_msg_origin (PStr (get_group_unified_msg_origin group_id platform))
  = PStr group_id
  /\ parse_unified_msg_origin (PStr group_id) = PStr group_id.
Proof.
  intros Hp Hg. unfold parse_unified_msg_origin, get_group_unified_msg_origin. split.
  - change (":group:" +:+ group_id) with (String ":" ("group" +:+ String ":" group_id)).
    rewrite (split_on_first ":" platform _ Hp).
    rewrite (split_on_first ":" "group" group_id eq_refl).
    now rewrite (split_on_without ":" group_id Hg).
  - now rewrite (split_on_without ":" group_id Hg).
Qed.

(** ** Templates *)

Lemma randint_range seed a b : a <= b -> a <= randint seed a b <= b.
Proof.
  intros Hab. unfold randint.
  pose proof (Z.mod_pos_bound seed (b - a + 1)). lia.
Qed.

(** Whatever the draw and the count, the index chosen by the dispatcher is
    inside the list of ten templates, so the selected prompt is one of
    them; the first send takes one of the four opening templates, the
    second one of the two middle ones, and from the third on the last send
    takes one of the two final templates and any other one of the two late
    ones. *)
Theorem prompt_index_in_tier cfg seed next_count :
  let i := select_prompt_index cfg seed next_count in
  0 <= i < Z.of_nat (length initiative_prompts)
  /\ In (nth (Z.to_nat i) initiative_prompts "") initiative_prompts
  /\ (next_count = 1 -> 0 <= i <= 3)
  /\ (next_count = 2 -> 4 <= i <= 5)
  /\ (next_count <> 1 -> next_count <> 2 ->
      next_count = max_consecutive_messages cfg -> 8 <= i <= 9)
  /\ (next_count <> 1 -> next_count <> 2 ->
      next_count <> max_consecutive_messages cfg -> 6 <= i <= 7).
Proof.
  intros i.
  pose proof (randint_range seed 0 3 ltac:(lia)) as H1.
  pose proof (randint_range seed 4 5 ltac:(lia)) as H2.
  pose proof (randint_range seed 8 9 ltac:(lia)) as H3.
  pose proof (randint_range seed 6 7 ltac:(lia)) as H4.
  assert (Z.of_nat (length initiative_prompts) = 10) as Hlen by reflexivity.
  assert (0 <= i < 10
          /\ (next_count = 1 -> 0 <= i <= 3)
          /\ (next_count = 2 -> 4 <= i <= 5)
          /\ (next_count <> 1 -> next_count <> 2 ->
              next_count = max_consecutive_messages cfg -> 8 <= i <= 9)
          /\ (next_count <> 1 -> next_count <> 2 ->
              next_count <> max_consecutive_messages cfg -> 6 <= i <= 7))
    as (Hi & K1 & K2 & K3 & K4).
  { subst i. unfold select_prompt_index. rewrite Hlen.
    destruct (Z.eqb_spec next_count 1); [lia|].
    destruct (Z.eqb_spec next_count 2); [lia|].
    destruct (Z.eqb_spec next_count (max_consecutive_messages cfg)); lia. }
  rewrite Hlen. split; [exact Hi|]. split; [|auto].
  apply nth_In. change (length initiative_prompts) with 10%nat. lia.
Qed.

(** ** The system prompt *)

Lemma find_first_match {A : Type} (f : A -> bool) before x after :
  f x = true ->
  (forall y, In y before -> f y = false) ->
  List.find f (before ++ x :: after)%list = Some x.
Proof.
  intros Hx. induction before as [|y before IH]; intros Hbefore; cbn [app List.find].
  - now rewrite Hx.
  - rewrite (Hbefore y) by now left.
    apply IH. intros z Hz. apply Hbefore. now right.
Qed.

Lemma find_no_match {A : Type} (f : A -> bool) l :
  (forall y, In y l -> f y = false) -> List.find f l = None.
Proof.
  induction l as [|y l IH]; intros Hl; cbn [List.find]; [reflexivity|].
  rewrite (Hl y) by now left.
  apply IH. intros z Hz. apply Hl. now right.
Qed.

(** The first persona of the list that carries the conversation's persona
    id decides the system prompt: it is that persona's prompt, or the
    default when that prompt is empty, whatever personas follow.  It is
    the default when the conversation names no persona, when the list
    cannot be read and when no persona carries the id.  So with a default
    that is not empty the system prompt is never empty. *)
Theorem system_prompt_of_first_persona h pid default_prompt :
  (forall p before x after,
      pid = Some p -> p <> "" ->
      host_personas h = Some (before ++ x :: after)%list ->
      persona_persona_id x = p ->
      (forall y, In y before -> persona_persona_id y <> p) ->
      _get_system_prompt h pid default_prompt
      = if String.eqb (persona_prompt x) "" then default_prompt else persona_prompt x)
  /\ (pid = None \/ pid = Some "" \/ host_personas h = None
      \/ (exists p personas,
            pid = Some p /\ host_personas h = Some personas
            /\ forall y, In y personas -> persona_persona_id y <> p) ->
      _get_system_prompt h pid default_prompt = default_prompt)
  /\ (default_prompt <> "" -> _get_system_prompt h pid default_prompt <> "").
Proof.
  split; [|split].
  - intros p before x after -> Hp Hpersonas Hx Hbefore.
    unfold _get_system_prompt.
    apply String.eqb_neq in Hp. rewrite Hp, Hpersonas.
    rewrite (find_first_match _ before x after); [reflexivity| |].
    + now apply String.eqb_eq.
    + intros y Hy. apply String.eqb_neq. now apply Hbefore.
  - unfold _get_system_prompt.
    intros [->|[->|[Hnone|(p & personas & -> & Hpersonas & Hall)]]].
    + reflexivity.
    + reflexivity.
    + destruct pid as [p|]; [|reflexivity].
      destruct (String.eqb p ""); [reflexivity|]. now rewrite Hnone.
    + destruct (String.eqb p ""); [reflexivity|]. rewrite Hpersonas.
      rewrite find_no_match; [reflexivity|].
      intros y Hy. apply String.eqb_neq. now apply Hall.
  - intros Hdefault. unfold _get_system_prompt.
    destruct pid as [p|]; [|assumption].
    destruct (String.eqb p ""); [assumption|].
    destruct (host_personas h) as [personas|]; [|assumption].
    destruct (List.find _ personas) as [x|]; [|assumption].
    destruct (String.eqb (persona_prompt x) "") eqn:Hempty; [assumption|].
    now apply String.eqb_neq.
Qed.

(** ** What the message manager touches *)

(** Whatever the host answers, [generate_and_send_message] lets no
    Exception out, leaves the counts, the activity records, the
    last-message records and the tier metadata as they were, and at most
    adds the request's group to the marker set, which it does only for a
    request of type "主动消息". *)
Theorem message_manager_is_contained h st r :
  let out := generate_and_send_message h st r in
  (forall e, snd out = Raise e -> is_Exception e = false)
  /\ consecutive_message_count (fst out) = consecutive_message_count st
  /\ group_records (fst out) = group_records st
  /\ last_initiative_messages (fst out) = last_initiative_messages st
  /\ last_initiative_types (fst out) = last_initiative_types st
  /\ (groups_received_initiative (fst out) = groups_received_initiative st
      \/ (req_message_type r = "主动消息"
          /\ groups_received_initiative (fst out)
             = {[ req_group_id r ]} ∪ groups_received_initiative st)).
Proof.
  intros out. split; [intros e; apply generate_and_send_message_raises|].
  assert (fst out = st
          \/ (req_message_type r = "主动消息"
              /\ fst out = set_groups_received_initiative (union {[ req_group_id r ]}) st))
    as [->|[Htype ->]]; [|tauto|cbn; tauto].
  subst out. unfold generate_and_send_message, generate_and_send_body.
  destruct (String.eqb (req_message_type r) "主动消息") eqn:Htype.
  - apply String.eqb_eq in Htype.
    repeat case_match; simplify_eq; cbn; auto.
  - left. repeat case_match; simplify_eq; reflexivity.
Qed.

(** The admin test command never changes the core, whoever calls it and
    whatever the host answers; a caller who is not an admin, or a call
    outside a group, gets the refusal text and the message manager is not
    reached. *)
Theorem test_command_leaves_core h ev st :
  fst (test_group_initiative_message h ev st) = st
  /\ (command_is_admin ev = false ->
      snd (test_group_initiative_message h ev st)
      = Ok (PlainResult "只有管理员可以使用此命令"))
  /\ (command_is_admin ev = true -> command_group_id ev = "" ->
      snd (test_group_initiative_message h ev st)
      = Ok (PlainResult "此命令只能在群聊中使用")).
Proof.
  unfold test_group_initiative_message. split; [|split].
  - destruct (command_is_admin ev); cbn [negb]; [|reflexivity].
    destruct (String.eqb (command_group_id ev) ""); [reflexivity|].
    destruct (command_conversation_id ev) as [c|e]; [|reflexivity].
    pose proof (generate_and_send_message_core h st
                  (test_request (command_group_id ev) c (command_unified_msg_origin ev))
                  eq_refl) as Hcore.
    destruct (generate_and_send_message h st _) as [st' [x|e]]; exact Hcore.
  - now intros ->.
  - intros -> ->. reflexivity.
Qed.

(** ** Preparing values for JSON *)

(** Induction over a Python value and the values nested in it. *)
Lemma pyval_nested_ind (P : pyval -> Prop) :
  P PNone ->
  (forall b, P (PBool b)) ->
  (forall n, P (PInt n)) ->
  (forall s, P (PStr s)) ->
  (forall t, P (PDatetime t)) ->
  (forall d, P (PDate d)) ->
  (forall l, Forall P l -> P (PList l)) ->
  (forall d, Forall (fun kv => P (snd kv)) d -> P (PDict d)) ->
  forall v, P v.
Proof.
  intros HNone HBool HInt HStr HDatetime HDate HList HDict.
  fix IH 1. intros [ |b|n|s|t|d|l|d].
  - exact HNone.
  - apply HBool.
  - apply HInt.
  - apply HStr.
  - apply HDatetime.
  - apply HDate.
  - apply HList.
    exact ((fix go (l : list pyval) : Forall P l :=
              match l with
              | [] => @List.Forall_nil _ P
              | x :: l' => @List.Forall_cons _ P x l' (IH x) (go l')
              end) l).
  - apply HDict.
    exact ((fix go (d : list (string * pyval)) : Forall (fun kv => P (snd kv)) d :=
              match d with
              | [] => @List.Forall_nil _ _
              | kv :: d' =>
                  @List.Forall_cons _ (fun kv => P (snd kv)) kv d' (IH (snd kv)) (go d')
              end) d).
Qed.

(** What the save writes: preparing a value twice is preparing it once,
    and the prepared value is one [json.dump] accepts exactly when no
    datetime or date of the original sits inside a list, the one container
    the preparation does not enter. *)
Theorem prepared_value_is_json v :
  prepare_value (prepare_value v) = prepare_value v
  /\ json_serializable (prepare_value v) = dates_only_in_dicts v.
Proof.
  induction v as [ | | | | | |l _|d IH] using pyval_nested_ind; try (split; reflexivity).
  cbn [prepare_value json_serializable dates_only_in_dicts]. split.
  - f_equal. induction IH as [|[k x] d [Hx _] _ IHd]; cbn [map fst snd] in *;
      [reflexivity|].
    now rewrite Hx, IHd.
  - induction IH as [|[k x] d [_ Hx] _ IHd]; cbn [map forallb fst snd] in *;
      [reflexivity|].
    now rewrite Hx, IHd.
Qed.

(** ** Messages and dispatches keep to their group *)

(** A group message without the marker, once the conversation lookup has
    answered, re-creates the group's activity record with the time of the
    handling, the conversation and the origin of the event.  This holds in
    every state, also when the reset raises half way. *)
Theorem genuine_message_rearms_group ev st c :
  event_group_id ev <> "" ->
  str_contains "[SYS_PROMPT]" (message_str ev) = false ->
  curr_conversation_id ev = Ok c ->
  dict_get (event_group_id ev) (group_records (handler_core (on_group_message ev st)))
  = Some (activity_record (event_now ev) c (PStr (unified_msg_origin ev))).
Proof.
  intros Hg Hmark Hc. unfold on_group_message.
  apply String.eqb_neq in Hg. rewrite Hg.
  unfold system_marker. rewrite Hmark.
  unfold handle_group_message. rewrite Hc. cbn [rbind].
  destruct (bool_decide _); [|cbn; apply dict_get_set_eq].
  unfold reset_type_info. cbn.
  destruct (dict_get (event_group_id ev) (last_initiative_types st)) as [info|].
  - destruct (py_setitem info "count" (PInt 0)); cbn; apply dict_get_set_eq.
  - cbn. apply dict_get_set_eq.
Qed.

Lemma dispatch_core_cases cfg h clk st g cid umo :
  let st' := dispatch_core (_send_initiative_message cfg h clk st g cid umo) in
  st' = st
  \/ exists n tp, st' = commit_dispatch cfg clk st g cid umo n tp.
Proof.
  unfold _send_initiative_message.
  destruct (whitelist_rejects cfg g); [now left|].
  destruct (read_next_count st g) as [n|e]; [|now left].
  destruct (max_consecutive_messages cfg <? n); [now left|].
  pose proof (generate_and_send_message_core h st
                (dispatch_request cfg h clk g cid umo n)
                (dispatch_request_type _ _ _ _ _ _ _)) as Hcore.
  destruct (generate_and_send_message h st _) as [st1 [x|e]]; cbn in *; subst st1.
  - right. eauto.
  - left. now destruct (is_Exception e).
Qed.

Lemma same_for_group_commit cfg clk st g cid umo n tp g' :
  g' <> g -> same_for_group g' st (commit_dispatch cfg clk st g cid umo n tp).
Proof.
  intros Hne. unfold same_for_group, commit_dispatch.
  destruct (n <? max_consecutive_messages cfg); cbn;
    rewrite ?dict_get_set_ne by assumption; repeat split; auto; try set_solver.
Qed.

(** A dispatch for one group and the handling of a message of one group
    leave every other group as it was: its count, its activity record, its
    last-message record, its tier metadata and its mark. *)
Theorem operations_keep_to_their_group cfg h clk st g cid umo ev g' :
  (g' <> g ->
   same_for_group g' st (dispatch_core (_send_initiative_message cfg h clk st g cid umo)))
  /\ (g' <> event_group_id ev ->
      same_for_group g' st (handler_core (on_group_message ev st))).
Proof.
  split; intros Hne.
  - destruct (dispatch_core_cases cfg h clk st g cid umo) as [->|(n & tp & ->)].
    + now repeat split.
    + now apply same_for_group_commit.
  - unfold on_group_message.
    destruct (String.eqb (event_group_id ev) ""); [now repeat split|].
    destruct (str_contains system_marker (message_str ev)); [now repeat split|].
    unfold handle_group_message.
    destruct (curr_conversation_id ev) as [c|e]; cbn [rbind]; [|now repeat split].
    destruct (bool_decide _).
    + unfold reset_type_info. cbn.
      destruct (dict_get (event_group_id ev) (last_initiative_types st)) as [info|].
      * destruct (py_setitem info "count" (PInt 0)); unfold same_for_group; cbn;
          rewrite ?dict_get_set_ne by assumption; repeat split; auto; try set_solver.
      * unfold same_for_group; cbn.
        rewrite ?dict_get_set_ne by assumption. repeat split; auto; try set_solver.
    + unfold same_for_group; cbn.
      rewrite ?dict_get_set_ne by assumption. now repeat split.
Qed.

(** ** A reply revives monitoring *)

Lemma handled_message ev st c :
  counted_is_marked st ->
  event_group_id ev <> "" ->
  str_contains "[SYS_PROMPT]" (message_str ev) = false ->
  curr_conversation_id ev = Ok c ->
  let st' := handler_core (on_group_message ev st) in
  dict_get (event_group_id ev) (group_records st')
  = Some (activity_record (event_now ev) c (PStr (unified_msg_origin ev)))
  /\ dict_get_default (event_group_id ev) (PInt 0) (consecutive_message_count st')
     = PInt 0.
Proof.
  intros Hinv Hg Hmark Hc. unfold on_group_message.
  apply String.eqb_neq in Hg. rewrite Hg.
  unfold system_marker. rewrite Hmark.
  unfold handle_group_message. rewrite Hc. cbn [rbind].
  cbn [groups_received_initiative set_group_records].
  destruct (bool_decide_reflect
              (event_group_id ev ∈ groups_received_initiative st)) as [Hin|Hout].
  - unfold reset_type_info. cbn.
    destruct (dict_get (event_group_id ev) (last_initiative_types st)) as [info|].
    + destruct (py_setitem info "count" (PInt 0)); cbn;
        (split; [apply dict_get_set_eq|apply dict_get_default_set_eq]).
    + cbn. split; [apply dict_get_set_eq|apply dict_get_default_set_eq].
  - cbn. split; [apply dict_get_set_eq|].
    destruct (Hinv (event_group_id ev)); [contradiction|assumption].
Qed.

(** In a reachable state, whatever the group's count (the maximum
    included), once a group message without the marker has been handled,
    the first tick inside the activity window at which the group has been
    silent for inactive_time_seconds since that message, and which raises
    nothing, hands the group to the scheduler with the conversation and
    the origin of the message, provided the whitelist lets the group pass
    and max_consecutive_messages is positive. *)
Theorem reply_revives_monitoring cfg st ev c w :
  reachable cfg st ->
  event_group_id ev <> "" ->
  str_contains "[SYS_PROMPT]" (message_str ev) = false ->
  curr_conversation_id ev = Ok c ->
  0 < max_consecutive_messages cfg ->
  whitelist_rejects cfg (event_group_id ev) = false ->
  (time_limit_enabled cfg = true -> in_activity_window cfg (wake_hour_clock w) = true) ->
  elapsed_at_least (wake_now w) (event_now ev) (inactive_time_seconds cfg) = true ->
  let st' := handler_core (on_group_message ev st) in
  scan_exn (scan_tick cfg w st') = None ->
  exists t,
    In t (scan_tasks (scan_tick cfg w st'))
    /\ task_group_id t = event_group_id ev
    /\ task_conversation_id t = c
    /\ task_unified_msg_origin t = PStr (unified_msg_origin ev).
Proof.
  intros Hreach Hg Hmark Hc Hmax Hwl Hwin Hel st'.
  destruct (handled_message ev st c (reachable_counted_is_marked cfg st Hreach)
              Hg Hmark Hc) as [Hrecord Hcount].
  fold st' in Hrecord, Hcount.
  set (t := {| task_id := "group_initiative_" +:+ event_group_id ev +:+ "_"
                          +:+ pretty (timestamp_seconds (wake_now w));
               random_delay := true; min_delay := 0;
               max_delay := Z.quot (max_response_delay_seconds cfg) 60;
               task_group_id := event_group_id ev; task_conversation_id := c;
               task_unified_msg_origin := PStr (unified_msg_origin ev) |}).
  assert (scan_group cfg (consecutive_message_count st') (wake_now w)
            (event_group_id ev)
            (activity_record (event_now ev) c (PStr (unified_msg_origin ev)))
          = Ok (Some t)) as Hscan.
  { unfold scan_group. rewrite Hwl, Hcount. cbn.
    destruct (Z.leb_spec (max_consecutive_messages cfg) 0); [lia|].
    now rewrite Hel. }
  intros Hexn. exists t. split; [|now repeat split].
  revert Hexn. unfold scan_tick.
  destruct (time_limit_enabled cfg) eqn:Htl; cbn.
  - rewrite (Hwin eq_refl). cbn. intros Hexn.
    eapply scan_records_submits; eauto using dict_get_In.
  - intros Hexn. eapply scan_records_submits; eauto using dict_get_In.
Qed.

(** ** Loading a document *)

Lemma convert_store_keeps now key top top' :
  convert_store now key top = Ok top' ->
  forall k, k <> key -> dict_get k top' = dict_get k top.
Proof.
  unfold convert_store. destruct (dict_get key top) as [v|]; [|now intros [= <-]].
  destruct v; try discriminate.
  destruct (convert_records now d) as [records'|]; cbn [rbind]; [|discriminate].
  intros [= <-] k Hne. now apply dict_get_set_ne.
Qed.

Lemma convert_store_absent now key top top' :
  convert_store now key top = Ok top' ->
  forall k, dict_get k top = None -> dict_get k top' = None.
Proof.
  intros Hconv k Hk. destruct (String.eqb_spec k key) as [->|Hne].
  - unfold convert_store in Hconv. rewrite Hk in Hconv. now injection Hconv as <-.
  - now rewrite (convert_store_keeps _ _ _ _ Hconv k Hne).
Qed.

Lemma convert_store_not_object now key top v :
  dict_get key top = Some v -> (forall d, v <> PDict d) ->
  convert_store now key top = Raise AttributeError.
Proof.
  intros Hget Hv. unfold convert_store. rewrite Hget.
  destruct v; try reflexivity. now destruct (Hv d).
Qed.

(** Loading is all or nothing: when the stored value of one of the three
    record stores is not a JSON object, none of the five stores is
    replaced, however well formed the rest of the document is. *)
Theorem load_is_all_or_nothing now top st key v :
  key = "group_records" \/ key = "last_initiative_messages"
  \/ key = "last_initiative_types" ->
  dict_get key top = Some v ->
  (forall d, v <> PDict d) ->
  load_data_from_storage now (Json (PDict top)) st = st.
Proof.
  intros Hkey Hget Hv. unfold load_data_from_storage, load_stores.
  destruct (convert_store now "group_records" top) as [top1|e1] eqn:H1;
    cbn [rbind]; [|reflexivity].
  destruct (convert_store now "last_initiative_messages" top1) as [top2|e2] eqn:H2;
    cbn [rbind]; [|reflexivity].
  destruct (convert_store now "last_initiative_types" top2) as [top3|e3] eqn:H3;
    cbn [rbind]; [|reflexivity].
  exfalso. destruct Hkey as [-> | [-> | ->]].
  - rewrite (convert_store_not_object _ _ _ _ Hget Hv) in H1. discriminate.
  - rewrite (convert_store_not_object now _ top1 v) in H2; [discriminate| |assumption].
    rewrite (convert_store_keeps _ _ _ _ H1) by discriminate. exact Hget.
  - rewrite (convert_store_not_object now _ top2 v) in H3; [discriminate| |assumption].
    rewrite (convert_store_keeps _ _ _ _ H2) by discriminate.
    rewrite (convert_store_keeps _ _ _ _ H1) by discriminate. exact Hget.
Qed.

(** A load that goes through replaces every store: one the document does
    not mention comes back empty, whatever was in memory. *)
Theorem load_defaults_missing_stores now top st st' :
  load_stores now (PDict top) st = Ok st' ->
  (dict_get "group_records" top = None -> group_records st' = [])
  /\ (dict_get "last_initiative_messages" top = None -> last_initiative_messages st' = [])
  /\ (dict_get "groups_received_initiative" top = None ->
      groups_received_initiative st' = ∅)
  /\ (dict_get "consecutive_message_count" top = None ->
      consecutive_message_count st' = [])
  /\ (dict_get "last_initiative_types" top = None -> last_initiative_types st' = []).
Proof.
  unfold load_stores.
  destruct (convert_store now "group_records" top) as [top1|e1] eqn:H1;
    cbn [rbind]; [|discriminate].
  destruct (convert_store now "last_initiative_messages" top1) as [top2|e2] eqn:H2;
    cbn [rbind]; [|discriminate].
  destruct (convert_store now "last_initiative_types" top2) as [top3|e3] eqn:H3;
    cbn [rbind]; [|discriminate].
  assert (forall k, dict_get k top = None -> dict_get k top3 = None) as Habsent.
  { intros k Hk. eapply convert_store_absent; [exact H3|].
    eapply convert_store_absent; [exact H2|].
    eapply convert_store_absent; [exact H1|]. exact Hk. }
  destruct (as_dict (dict_get_default "group_records" (PDict []) top3))
    as [records|] eqn:Hr; cbn [rbind]; [|discriminate].
  destruct (as_dict (dict_get_default "last_initiative_messages" (PDict []) top3))
    as [messages|] eqn:Hm; cbn [rbind]; [|discriminate].
  destruct (as_group_set (dict_get_default "groups_received_initiative" (PList []) top3))
    as [received|] eqn:Hg; cbn [rbind]; [|discriminate].
  destruct (match dict_get_default "consecutive_message_count" (PDict []) top3 with
            | PNone => Ok (consecutive_message_count st)
            | v => as_dict v
            end) as [counts|] eqn:Hc; cbn [rbind]; [|discriminate].
  destruct (as_dict (dict_get_default "last_initiative_types" (PDict []) top3))
    as [types|] eqn:Ht; cbn [rbind]; [|discriminate].
  intros [= <-]. cbn.
  unfold dict_get_default in *.
  repeat split; intros Hk; apply Habsent in Hk; rewrite Hk in *; cbn in *; congruence.
Qed.

(** ** The end of the loop *)

Lemma check_loop_app cfg pre rest : forall st submitted ticks,
  let r := check_loop cfg pre st submitted ticks in
  check_loop cfg (pre ++ rest) st submitted ticks
  = match loop_status_of r with
    | Sleeping => check_loop cfg rest (loop_core r) (loop_tasks r) (loop_ticks r)
    | _ => r
    end.
Proof.
  induction pre as [|w pre IH]; intros st submitted ticks; cbn [check_loop app].
  - reflexivity.
  - destruct (wake_cancelled w); [reflexivity|].
    destruct (scan_exn (scan_tick cfg w st)) as [e|].
    + cbn. now destruct (is_Exception e).
    + apply IH.
Qed.

(** Once the coroutine has ended, by a cancellation or by an exception it
    caught, no later wake-up is processed: the core, the submitted tasks
    and the number of iterations stay what they were.  And a cancellation
    that arrives while the loop is waiting ends it there, without another
    tick. *)
Theorem ended_loop_stays_ended cfg pre w rest st :
  let r := _check_inactive_conversations_loop cfg pre st in
  (loop_status_of r <> Sleeping ->
   _check_inactive_conversations_loop cfg (pre ++ rest) st = r)
  /\ (loop_status_of r = Sleeping -> wake_cancelled w = true ->
      _check_inactive_conversations_loop cfg (pre ++ w :: rest) st
      = mkloop (loop_core r) (loop_tasks r) (loop_ticks r) Cancelled).
Proof.
  intros r. subst r. unfold _check_inactive_conversations_loop. split.
  - intros Hended. rewrite check_loop_app. cbn zeta.
    destruct (loop_status_of (check_loop cfg pre st [] 0)); [contradiction| |]; reflexivity.
  - intros Hrun Hcancel. rewrite check_loop_app. cbn zeta. rewrite Hrun.
    cbn [check_loop]. now rewrite Hcancel.
Qed.

(** ** The result of the send *)

(** What a dispatch commits does not depend on what the message manager
    returned: with two hosts on which the call returns, be it a request on
    one and False on the other, the dispatcher leaves the same core and
    saves in both cases. *)
Theorem commit_ignores_send_result cfg h1 h2 clk st g cid umo n result1 result2 :
  whitelist_rejects cfg g = false ->
  read_next_count st g = Ok n ->
  n <= max_consecutive_messages cfg ->
  snd (generate_and_send_message h1 st (dispatch_request cfg h1 clk g cid umo n))
  = Ok result1 ->
  snd (generate_and_send_message h2 st (dispatch_request cfg h2 clk g cid umo n))
  = Ok result2 ->
  dispatch_core (_send_initiative_message cfg h1 clk st g cid umo)
  = dispatch_core (_send_initiative_message cfg h2 clk st g cid umo)
  /\ dispatch_saved (_send_initiative_message cfg h1 clk st g cid umo) = true
  /\ dispatch_saved (_send_initiative_message cfg h2 clk st g cid umo) = true.
Proof.
  intros Hwl Hn Hmax H1 H2.
  rewrite (dispatch_returned _ _ _ _ _ _ _ _ _ Hwl Hn Hmax H1).
  rewrite (dispatch_returned _ _ _ _ _ _ _ _ _ Hwl Hn Hmax H2).
  now repeat split.
Qed.

(** ** A restart *)

(** Whatever history of handled messages, ticks and dispatches built the
    state, with valid clock readings and scalar ids, the save writes the
    document (nothing in it is refused by the encoder) and a load of that
    document, into whatever core, gives the state back whole. *)
Theorem built_state_survives_restart cfg now st st0 f :
  built cfg st ->
  save_data_to_storage true st f = Json (data_to_save st)
  /\ load_data_from_storage now (save_data_to_storage true st f) st0 = st.
Proof.
  intros Hbuilt. pose proof (built_shaped cfg st Hbuilt) as Hshape.
  unfold save_data_to_storage. rewrite (data_to_save_serializable st Hshape).
  split; [reflexivity|].
  unfold snapshot_shaped in Hshape.
  apply andb_prop in Hshape as [[[Hr Hm]%andb_prop Ht]%andb_prop Hc].
  unfold load_data_from_storage, load_stores, data_to_save, convert_store.
  cbn [dict_get String.eqb Ascii.eqb Bool.eqb rbind].
  rewrite (convert_prepared_store now _ Hr).
  cbn [dict_get dict_set String.eqb Ascii.eqb Bool.eqb rbind].
  rewrite (convert_prepared_store now _ Hm).
  cbn [dict_get dict_set String.eqb Ascii.eqb Bool.eqb rbind].
  rewrite (convert_prepared_store now _ Ht).
  cbn [dict_get dict_set dict_get_default String.eqb Ascii.eqb Bool.eqb rbind
       as_dict as_group_set].
  rewrite as_group_ids_strings. cbn [rbind].
  rewrite list_to_set_elements_L.
  now destruct st.
Qed.

(** ** Instances of the further properties *)

Lemma loop_outside_window_is_idle_witness :
  _check_inactive_conversations_loop default_config [wake_night; wake_night] core_armed
  = mkloop core_armed [] 2 Sleeping.
Proof.
  apply (loop_outside_window_is_idle default_config [wake_night; wake_night] core_armed).
  - reflexivity.
  - repeat constructor.
Defined.

Lemma unlisted_group_is_left_alone_witness :
  dict_get group1
    (group_records
       (loop_core (_check_inactive_conversations_loop config_listed
                     [wake_afternoon; wake_evening] core_armed)))
  = Some (activity_record morning conversation1 origin1)
  /\ _send_initiative_message config_listed host_ok clock1 core_armed
       group1 conversation1 origin1
     = mkdispatch core_armed [] false None.
Proof.
  destruct (unlisted_group_is_left_alone config_listed [wake_afternoon; wake_evening]
              host_ok clock1 core_armed group1 conversation1 origin1)
    as (_ & Hrecord & Hdispatch); [reflexivity|set_solver|].
  split; [exact Hrecord|exact Hdispatch].
Defined.

Lemma scanner_submits_each_group_once_witness :
  NoDup (task_groups
           (loop_tasks (_check_inactive_conversations_loop default_config
                          [wake_afternoon; wake_evening] core_armed)))
  /\ length (loop_tasks (_check_inactive_conversations_loop default_config
                           [wake_afternoon; wake_evening] core_armed)) = 1%nat.
Proof.
  split; [|reflexivity].
  apply (scanner_submits_each_group_once default_config [wake_afternoon; wake_evening]
           core_armed).
  cbn. apply NoDup_singleton.
Defined.

Lemma count_never_exceeds_max_witness :
  exists n, dict_get group1 (consecutive_message_count core_terminal) = Some (PInt n)
            /\ 0 <= n <= 3.
Proof.
  destruct (count_never_exceeds_max default_config core_terminal group1
              reachable_core_terminal ltac:(cbn; lia)) as [Hcount _].
  destruct (Hcount (PInt 3) eq_refl) as (n & Hn & Hrange).
  injection Hn as <-. exists 3. split; [reflexivity|exact Hrange].
Defined.

Lemma scanner_keeps_running_witness :
  loop_ticks (_check_inactive_conversations_loop default_config
                [wake_afternoon; wake_night; wake_evening] core_terminal) = 3%nat
  /\ loop_status_of (_check_inactive_conversations_loop default_config
                       [wake_afternoon; wake_night; wake_evening] core_terminal)
     = Sleeping.
Proof.
  apply (scanner_keeps_running default_config
           [wake_afternoon; wake_night; wake_evening] core_terminal).
  - apply reachable_core_terminal.
  - repeat constructor.
Defined.

Lemma operations_raise_no_type_error_witness :
  dispatch_exn (_send_initiative_message default_config host_ok clock1 core_terminal
                  group1 conversation1 origin1) = None
  /\ handler_exn (on_group_message reply1 core_terminal) = None.
Proof.
  destruct (operations_raise_no_type_error default_config host_ok clock1 core_terminal
              group1 conversation1 origin1 reply1 reachable_core_terminal) as [_ _].
  split; reflexivity.
Defined.

Lemma host_ok_delivers : host_delivers host_ok.
Proof. repeat split; cbn; eauto. Defined.

Lemma escalation_stops_at_max_witness :
  let out := dispatch_times 5 default_config host_ok clock1 init_core group1
               conversation1 (PStr "aiocqhttp:GroupMessage:g1") in
  dict_get_default group1 (PInt 0) (consecutive_message_count (fst out)) = PInt 3
  /\ Z.of_nat (length (snd out)) = 3.
Proof.
  apply (escalation_stops_at_max default_config host_ok clock1 init_core group1
           conversation1 "aiocqhttp:GroupMessage:g1" 5 host_ok_delivers);
    [reflexivity|cbn; lia|reflexivity|reflexivity].
Defined.

Lemma own_outreach_is_ignored_witness :
  on_group_message outreach_echo1 core_sent_once = mkhandler core_sent_once false None.
Proof.
  eapply (own_outreach_is_ignored host_ok init_core
            (dispatch_request default_config host_ok clock1 group1 conversation1
               origin1 1) _ _ outreach_echo1 core_sent_once);
    reflexivity.
Defined.

Lemma scanner_agrees_with_group_manager_witness :
  (exists task,
      scan_group default_config [] afternoon group1
        (activity_record morning conversation1 origin1) = Ok (Some task))
  <-> is_group_whitelisted group1 ∅ false = true
      /\ should_send_initiative_message afternoon group1 morning 7200 0 3 = true.
Proof.
  apply (scanner_agrees_with_group_manager default_config [] afternoon group1 morning
           conversation1 origin1 0).
  reflexivity.
Defined.

Lemma group_origin_round_trip_witness :
  parse_unified_msg_origin (PStr (get_group_unified_msg_origin "g1" "aiocqhttp"))
  = PStr "g1"
  /\ parse_unified_msg_origin (PStr "g1") = PStr "g1".
Proof.
  apply (group_origin_round_trip "g1" "aiocqhttp"); reflexivity.
Defined.

Lemma genuine_message_rearms_group_witness :
  dict_get group1 (group_records (handler_core (on_group_message reply1 core_terminal)))
  = Some (activity_record afternoon conversation1 (PStr "aiocqhttp:GroupMessage:g1")).
Proof.
  apply (genuine_message_rearms_group reply1 core_terminal conversation1);
    [discriminate|reflexivity|reflexivity].
Defined.

Lemma reply_revives_monitoring_witness :
  exists t,
    In t (scan_tasks (scan_tick default_config wake_evening
                        (handler_core (on_group_message reply1 core_terminal))))
    /\ task_group_id t = group1.
Proof.
  destruct (reply_revives_monitoring default_config core_terminal reply1 conversation1
              wake_evening reachable_core_terminal)
    as (t & Hin & Hg & _);
    [discriminate|reflexivity|reflexivity|cbn; lia|reflexivity|reflexivity
    |reflexivity|reflexivity|].
  exists t. split; assumption.
Defined.

Lemma load_is_all_or_nothing_witness :
  load_data_from_storage afternoon (Json (PDict document_with_list)) core_sent_once
  = core_sent_once.
Proof.
  apply (load_is_all_or_nothing afternoon document_with_list core_sent_once
           "group_records" (PList []));
    [now left|reflexivity|discriminate].
Defined.

Lemma load_defaults_missing_stores_witness :
  exists st',
    load_stores afternoon (PDict document_counts_only) core_sent_once = Ok st'
    /\ dict_get group1 (consecutive_message_count st') = Some (PInt 3)
    /\ groups_received_initiative st' = ∅
    /\ group_records st' = [].
Proof.
  eexists. split; [reflexivity|]. split; [reflexivity|].
  destruct (load_defaults_missing_stores afternoon document_counts_only core_sent_once
              _ eq_refl) as (Hrecords & _ & Hmarks & _).
  split; [apply Hmarks|apply Hrecords]; reflexivity.
Defined.

Lemma ended_loop_stays_ended_witness :
  _check_inactive_conversations_loop default_config
    ([wake_scheduler_down] ++ [wake_afternoon; wake_evening]) core_armed
  = mkloop core_armed [] 1 (Returned ExternalError).
Proof.
  destruct (ended_loop_stays_ended default_config [wake_scheduler_down] wake_afternoon
              [wake_afternoon; wake_evening] core_armed) as [Hended _].
  apply Hended. discriminate.
Defined.

Lemma commit_ignores_send_result_witness :
  dispatch_core (_send_initiative_message default_config host_ok clock1 init_core
                   group1 conversation1 origin1)
  = dispatch_core (_send_initiative_message default_config host_no_conversation clock1
                     init_core group1 conversation1 origin1).
Proof.
  eapply (commit_ignores_send_result default_config host_ok host_no_conversation clock1
            init_core group1 conversation1 origin1 1);
    [reflexivity|reflexivity|cbn; lia|reflexivity|reflexivity].
Defined.

Lemma built_state_survives_restart_witness :
  load_data_from_storage afternoon
    (save_data_to_storage true (handler_core (on_group_message reply1 core_sent_once))
       NoFile) init_core
  = handler_core (on_group_message reply1 core_sent_once).
Proof.
  apply (built_state_survives_restart default_config afternoon
           (handler_core (on_group_message reply1 core_sent_once)) init_core NoFile).
  apply built_message.
  - apply built_dispatch; [apply built_init|repeat split; reflexivity].
  - split; [reflexivity|].
    intros c Hc. injection Hc as <-. reflexivity.
Defined.

Lemma system_prompt_of_first_persona_witness :
  _get_system_prompt host_three_personas (Some "p1") default_system_prompt
  = "你是群里的气氛担当"
  /\ _get_system_prompt host_three_personas (Some "p0") default_system_prompt
     = default_system_prompt.
Proof.
  split.
  - destruct (system_prompt_of_first_persona host_three_personas (Some "p1")
                default_system_prompt) as [Hfirst _].
    apply (Hfirst "p1" [mkpersona "p0" ""; mkpersona "p0" "第二个人格"]
             (mkpersona "p1" "你是群里的气氛担当") []); try reflexivity.
    + discriminate.
    + intros y [<-|[<-|[]]]; discriminate.
  - destruct (system_prompt_of_first_persona host_three_personas (Some "p0")
                default_system_prompt) as [Hfirst _].
    apply (Hfirst "p0" [] (mkpersona "p0" "") [mkpersona "p0" "第二个人格";
                                               mkpersona "p1" "你是群里的气氛担当"]);
      try reflexivity.
    + discriminate.
    + intros y [].
Defined.
